(** * IronPillarApp: the active-workout session controller

    A shallow embedding of [src/screens/Workouts/ActiveWorkoutScreen.tsx]
    (with the record types of [src/types/index.ts]) and the properties of
    its set-completion / rest-timer / exercise-advance logic.

    Modelling conventions.
    - The component's [useState] cells form the record [State]; every
      [setX] of the source is a function [State -> State] of the same name.
    - A handler returns the state it leaves behind together with the trace
      of calls it made to its collaborators (the auth and storage client,
      [Alert], [console]): the type [Effect].
    - An awaited call is answered by the environment: the answer is an
      argument of the handler ([Awaited]); the storage client answers with
      a [{data, error}] object ([Response]), as the source destructures it.
    - JavaScript [number]s that hold counts, indices and seconds are [Z];
      [weight_lbs], which the screen reads with [parseFloat], is a rational
      ([Qc]); [null] and [undefined] are [None].  Times are milliseconds
      since the epoch. *)

From Stdlib Require Import ZArith QArith Qcanon Ascii.
From stdpp Require Import base numbers list strings pretty.

Local Open Scope Z_scope.

(** ** Data model ([src/types/index.ts]) *)

Record Exercise := {
  ex_id : string;
  ex_name : string;
  ex_description : option string;
  ex_muscle_groups : list string;
  ex_equipment : option string;
  ex_instructions : list string;
  ex_created_at : string
}.

(** [WorkoutExercise & { exercise: Exercise }] *)
Record WorkoutExercise := {
  we_id : string;
  we_workout_id : string;
  we_exercise_id : string;
  we_sets : Z;
  we_reps : option Z;
  we_rest_seconds : Z;
  we_order_index : Z;
  we_notes : option string;
  we_exercise : Exercise
}.

Record WorkoutWithExercises := {
  w_id : string;
  w_name : string;
  w_description : option string;
  w_user_id : string;
  w_is_public : bool;
  w_created_at : string;
  w_updated_at : string;
  workout_exercises : list WorkoutExercise
}.

Record ActiveSet := {
  as_id : option string;
  exercise_id : string;
  exercise_name : string;
  set_number : Z;
  weight_lbs : option Qc;
  reps : option Z;
  rpe : option Z;
  completed : bool;
  target_reps : option Z;
  rest_seconds : option Z
}.

(** A well-typed [(field, value)] pair for [keyof ActiveSet]. *)
Inductive FieldValue :=
| F_id (v : option string)
| F_exercise_id (v : string)
| F_exercise_name (v : string)
| F_set_number (v : Z)
| F_weight_lbs (v : option Qc)
| F_reps (v : option Z)
| F_rpe (v : option Z)
| F_completed (v : bool)
| F_target_reps (v : option Z)
| F_rest_seconds (v : option Z).

(** [{ ...set, [field]: value }] *)
Definition spread (set : ActiveSet) (fv : FieldValue) : ActiveSet :=
  let '{| as_id := a; exercise_id := b; exercise_name := c; set_number := d;
          weight_lbs := e; reps := f; rpe := g; completed := h;
          target_reps := i; rest_seconds := j |} := set in
  match fv with
  | F_id v => Build_ActiveSet v b c d e f g h i j
  | F_exercise_id v => Build_ActiveSet a v c d e f g h i j
  | F_exercise_name v => Build_ActiveSet a b v d e f g h i j
  | F_set_number v => Build_ActiveSet a b c v e f g h i j
  | F_weight_lbs v => Build_ActiveSet a b c d v f g h i j
  | F_reps v => Build_ActiveSet a b c d e v g h i j
  | F_rpe v => Build_ActiveSet a b c d e f v h i j
  | F_completed v => Build_ActiveSet a b c d e f g v i j
  | F_target_reps v => Build_ActiveSet a b c d e f g h v j
  | F_rest_seconds v => Build_ActiveSet a b c d e f g h i v
  end.

(** ** Component state (the [useState] cells) *)

Record State := {
  sessionId : string;
  startTime : Z;
  currentExerciseIndex : nat;
  sets : list ActiveSet;
  restTimer : Z;
  isResting : bool;
  showRestModal : bool
}.

Definition initialState (now : Z) : State :=
  {| sessionId := ""; startTime := now; currentExerciseIndex := 0;
     sets := []; restTimer := 0; isResting := false;
     showRestModal := false |}.

Definition setSessionId (v : string) (st : State) : State :=
  {| sessionId := v; startTime := startTime st;
     currentExerciseIndex := currentExerciseIndex st; sets := sets st;
     restTimer := restTimer st; isResting := isResting st;
     showRestModal := showRestModal st |}.

Definition setCurrentExerciseIndex (v : nat) (st : State) : State :=
  {| sessionId := sessionId st; startTime := startTime st;
     currentExerciseIndex := v; sets := sets st;
     restTimer := restTimer st; isResting := isResting st;
     showRestModal := showRestModal st |}.

(** [setSets] in its functional form [setSets(prev => ...)]; a plain
    [setSets(v)] is [setSets (fun _ => v)]. *)
Definition setSets (f : list ActiveSet -> list ActiveSet) (st : State) : State :=
  {| sessionId := sessionId st; startTime := startTime st;
     currentExerciseIndex := currentExerciseIndex st; sets := f (sets st);
     restTimer := restTimer st; isResting := isResting st;
     showRestModal := showRestModal st |}.

Definition setRestTimer (f : Z -> Z) (st : State) : State :=
  {| sessionId := sessionId st; startTime := startTime st;
     currentExerciseIndex := currentExerciseIndex st; sets := sets st;
     restTimer := f (restTimer st); isResting := isResting st;
     showRestModal := showRestModal st |}.

Definition setIsResting (v : bool) (st : State) : State :=
  {| sessionId := sessionId st; startTime := startTime st;
     currentExerciseIndex := currentExerciseIndex st; sets := sets st;
     restTimer := restTimer st; isResting := v;
     showRestModal := showRestModal st |}.

Definition setShowRestModal (v : bool) (st : State) : State :=
  {| sessionId := sessionId st; startTime := startTime st;
     currentExerciseIndex := currentExerciseIndex st; sets := sets st;
     restTimer := restTimer st; isResting := isResting st;
     showRestModal := v |}.

(** ** Collaborators *)

(** The row sent to [workout_session_sets]. *)
Record SessionSetRow := {
  row_session_id : string;
  row_exercise_id : string;
  row_exercise_name : string;
  row_set_number : Z;
  row_weight_lbs : option Qc;
  row_reps : option Z;
  row_rpe : option Z;
  row_completed : bool
}.

Inductive Effect :=
| AuthGetUser
| InsertSession (user_id workout_id workout_name : string) (started_at : Z)
| InsertSessionSet (row : SessionSetRow)
| UpdateSession (id : string) (completed_at duration_minutes : Z)
| AlertAlert (title message : string) (buttons : list string)
| ConsoleError (message : string)
| UncaughtTypeError.

(** What an [await] yields: the promise is fulfilled with a value, or it
    is rejected and the [await] throws. *)
Inductive Awaited (A : Type) :=
| Fulfilled (v : A)
| Rejected (reason : string).
Arguments Fulfilled {A} v.
Arguments Rejected {A} reason.

(** The storage client's answer object [{ data, error }]. *)
Record Response (A : Type) := {
  resp_data : option A;
  resp_error : option string
}.
Arguments resp_data {A} _.
Arguments resp_error {A} _.

(** ** JavaScript truthiness of [number | null] and of [number | undefined] *)

Definition truthyZ (v : option Z) : bool :=
  match v with
  | Some n => negb (n =? 0)
  | None => false
  end.

Definition truthyQ (v : option Qc) : bool :=
  match v with
  | Some q => negb (bool_decide (q = 0%Qc))
  | None => false
  end.

(** [v || d] on [number | undefined] *)
Definition orDefault (v : option Z) (d : Z) : Z :=
  match v with
  | Some n => if n =? 0 then d else n
  | None => d
  end.

(** ** [initializeSetsForExercise] *)

Definition newSet (exercise : WorkoutExercise) (i : Z) : ActiveSet :=
  {| as_id := None;
     exercise_id := we_exercise_id exercise;
     exercise_name := ex_name (we_exercise exercise);
     set_number := i;
     weight_lbs := None;
     reps := None;
     rpe := None;
     completed := false;
     target_reps := we_reps exercise;
     rest_seconds := Some (we_rest_seconds exercise) |}.

(** The loop [for (let i = 1; i <= exercise.sets; i++) newSets.push(...)],
    started at any [i]; [fuel] bounds the number of iterations. *)
Fixpoint pushSets (exercise : WorkoutExercise) (fuel : nat) (i : Z)
    (newSets : list ActiveSet) : list ActiveSet :=
  match fuel with
  | O => newSets
  | S fuel' =>
      if i <=? we_sets exercise
      then pushSets exercise fuel' (i + 1) (newSets ++ [newSet exercise i])
      else newSets
  end.

Definition newSetsFor (exercise : WorkoutExercise) : list ActiveSet :=
  pushSets exercise (Z.to_nat (we_sets exercise)) 1 [].

(** [None] is the [TypeError] of reading [.sets] of [undefined]. *)
Definition initializeSetsForExercise (workout : WorkoutWithExercises)
    (exerciseIndex : nat) (st : State) : option State :=
  match workout_exercises workout !! exerciseIndex with
  | Some exercise => Some (setSets (fun _ => newSetsFor exercise) st)
  | None => None
  end.

(** ** [initializeWorkoutSession] *)

Record SessionRow := { sr_id : string }.

Definition startFailed : list Effect :=
  [ConsoleError "Error initializing workout session:";
   AlertAlert "Error" "Failed to start workout session" []].

Definition initializeWorkoutSession (workout : WorkoutWithExercises)
    (st : State) (getUser : Awaited (option string))
    (insert : Awaited (Response SessionRow)) : State * list Effect :=
  match getUser with
  | Rejected _ => (st, AuthGetUser :: startFailed)
  | Fulfilled None => (st, [AuthGetUser])
  | Fulfilled (Some user_id) =>
      let call := InsertSession user_id (w_id workout) (w_name workout)
                    (startTime st) in
      match insert with
      | Rejected _ => (st, AuthGetUser :: call :: startFailed)
      | Fulfilled r =>
          match resp_error r, resp_data r with
          | Some _, _ => (st, AuthGetUser :: call :: startFailed)
          | None, None => (st, AuthGetUser :: call :: startFailed)
          | None, Some data =>
              let st1 := setSessionId (sr_id data) st in
              match initializeSetsForExercise workout 0 st1 with
              | Some st2 => (st2, [AuthGetUser; call])
              | None => (st1, AuthGetUser :: call :: startFailed)
              end
          end
      end
  end.

(** ** [updateSet] *)

Definition updateSet (setIndex : nat) (fv : FieldValue) (st : State) : State :=
  setSets (imap (fun index set =>
                   if decide (index = setIndex) then spread set fv else set))
          st.

(** The three text inputs of a set card.  [parsed] is the result of
    [parseFloat]/[parseInt] on the typed text ([None] for [NaN]); the
    handler stores [parsed || null]. *)
Inductive InputField := WeightInput | RepsInput | RpeInput.

Definition nullIfFalsyZ (parsed : option Z) : option Z :=
  if truthyZ parsed then parsed else None.

Definition nullIfFalsyQ (parsed : option Qc) : option Qc :=
  if truthyQ parsed then parsed else None.

Definition onChangeText (index : nat) (input : InputField)
    (parsedFloat : option Qc) (parsedInt : option Z) (st : State) : State :=
  match input with
  | WeightInput => updateSet index (F_weight_lbs (nullIfFalsyQ parsedFloat)) st
  | RepsInput => updateSet index (F_reps (nullIfFalsyZ parsedInt)) st
  | RpeInput => updateSet index (F_rpe (nullIfFalsyZ parsedInt)) st
  end.

(** [editable={!set.completed}] *)
Definition editable (set : ActiveSet) : bool := negb (completed set).

(** A text-change event on the input of card [index]: the input exists
    only for a rendered set, and a non-editable input takes no text. *)
Definition typeInto (index : nat) (input : InputField)
    (parsedFloat : option Qc) (parsedInt : option Z) (st : State) : State :=
  match sets st !! index with
  | Some set =>
      if editable set
      then onChangeText index input parsedFloat parsedInt st
      else st
  | None => st
  end.

(** ** [completeSet] *)

Definition setRow (session : string) (set : ActiveSet) : SessionSetRow :=
  {| row_session_id := session;
     row_exercise_id := exercise_id set;
     row_exercise_name := exercise_name set;
     row_set_number := set_number set;
     row_weight_lbs := weight_lbs set;
     row_reps := reps set;
     row_rpe := rpe set;
     row_completed := true |}.

Definition incompleteSet : Effect :=
  AlertAlert "Incomplete Set"
    "Please enter weight and reps before completing the set" [].

Definition saveFailed : list Effect :=
  [ConsoleError "Error saving set:"; AlertAlert "Error" "Failed to save set" []].

(** The part of [completeSet] after the [await]: [seen] is the render the
    handler closed over (its [sets], [currentExerciseIndex]), [st] the
    state the updates are applied to. *)
Definition completeSetResume (workout : WorkoutWithExercises) (seen : State)
    (setIndex : nat) (set : ActiveSet) (insert : Awaited (Response unit))
    (st : State) : State * list Effect :=
  match insert with
  | Rejected _ => (st, saveFailed)
  | Fulfilled _ =>
      let st1 := updateSet setIndex (F_completed true) st in
      let isLastSet :=
        bool_decide (Z.of_nat setIndex = Z.of_nat (length (sets seen)) - 1) in
      let isLastExercise :=
        bool_decide (Z.of_nat (currentExerciseIndex seen)
                     = Z.of_nat (length (workout_exercises workout)) - 1) in
      if negb isLastSet || negb isLastExercise
      then
        let restTime := orDefault (rest_seconds set) 60 in
        (setShowRestModal true
           (setIsResting true (setRestTimer (fun _ => restTime) st1)), [])
      else (st1, [])
  end.

(** [completeSet] with no other event between the call and the end of the
    [await]. *)
Definition completeSet (workout : WorkoutWithExercises) (setIndex : nat)
    (insert : Awaited (Response unit)) (st : State) : State * list Effect :=
  match sets st !! setIndex with
  | None => (st, [UncaughtTypeError])
  | Some set =>
      if negb (truthyQ (weight_lbs set)) || negb (truthyZ (reps set))
      then (st, [incompleteSet])
      else
        let '(st', out) :=
          completeSetResume workout st setIndex set insert st in
        (st', InsertSessionSet (setRow (sessionId st) set) :: out)
  end.

(** ** Rest timer *)

(** The updater the interval passes to [setRestTimer], with the two
    setters it calls when the countdown ends. *)
Definition tickCallback (st : State) : State :=
  if restTimer st <=? 1
  then setRestTimer (fun _ => 0) (setShowRestModal false (setIsResting false st))
  else setRestTimer (fun prev => prev - 1) st.

(** The effect installs the interval only when [isResting && restTimer > 0]. *)
Definition intervalActive (st : State) : bool :=
  isResting st && (0 <? restTimer st).

Definition tick (st : State) : State :=
  if intervalActive st then tickCallback st else st.

(** The "Skip Rest" button. *)
Definition skipRest (st : State) : State :=
  setShowRestModal false (setIsResting false st).

(** The "+30s" button. *)
Definition extendRest (st : State) : State :=
  setRestTimer (fun prev => prev + 30) st.

(** ** [finishWorkout] and [nextExercise] *)

(** [Math.round((endTime - startTime) / (1000 * 60))]: to the nearest
    integer, halves upwards. *)
Definition durationMinutes (startTime endTime : Z) : Z :=
  (endTime - startTime + 30000) `div` 60000.

Definition finishWorkout (workout : WorkoutWithExercises) (endTime : Z)
    (update : Awaited (Response unit)) (st : State) : State * list Effect :=
  let minutes := durationMinutes (startTime st) endTime in
  let call := UpdateSession (sessionId st) endTime minutes in
  match update with
  | Rejected _ =>
      (st, [call; ConsoleError "Error finishing workout:";
            AlertAlert "Error" "Failed to save workout completion" []])
  | Fulfilled _ =>
      (st, [call;
            AlertAlert "Workout Complete!"
              ("Great job! You completed " +:+ w_name workout +:+ " in "
               +:+ pretty minutes +:+ " minutes.")
              ["View Summary"]])
  end.

Definition nextExercise (workout : WorkoutWithExercises) (endTime : Z)
    (update : Awaited (Response unit)) (st : State) : State * list Effect :=
  if bool_decide (Z.of_nat (currentExerciseIndex st)
                  < Z.of_nat (length (workout_exercises workout)) - 1)
  then
    let nextIndex := (currentExerciseIndex st + 1)%nat in
    let st1 := setCurrentExerciseIndex nextIndex st in
    match initializeSetsForExercise workout nextIndex st1 with
    | Some st2 => (st2, [])
    | None => (st1, [UncaughtTypeError])
    end
  else finishWorkout workout endTime update st.

Definition allSetsCompleted (st : State) : bool :=
  forallb completed (sets st).

(** ** The instantiation rule and the reachable states *)

(** The entry the rule prescribes at position [k] (counted from 0) of the
    sets of [exercise]. *)
Definition freshEntry (exercise : WorkoutExercise) (k : nat) : ActiveSet :=
  {| as_id := None;
     exercise_id := we_exercise_id exercise;
     exercise_name := ex_name (we_exercise exercise);
     set_number := Z.of_nat k + 1;
     weight_lbs := None; reps := None; rpe := None; completed := false;
     target_reps := we_reps exercise;
     rest_seconds := Some (we_rest_seconds exercise) |}.

(** [l] is the list of sets of a session that has just arrived at
    [exercise]: one fresh entry per prescribed set, numbered from 1. *)
Definition instantiated (exercise : WorkoutExercise) (l : list ActiveSet) : Prop :=
  length l = Z.to_nat (we_sets exercise) ∧
  ∀ k : nat, (k < Z.to_nat (we_sets exercise))%nat →
             l !! k = Some (freshEntry exercise k).

(** The rest duration as the specification words it: the set's
    [rest_seconds], 60 when it is unset. *)
Definition specRestTime (set : ActiveSet) : Z :=
  match rest_seconds set with
  | Some r => r
  | None => 60
  end.

(** The states the screen can be in.  It mounts with the initial cells
    ([reach_mount]) and asks for the session at once; the answer, whatever
    it is, arrives at some later moment ([reach_start]), possibly after
    other events: "Next Exercise" is offered on the empty set list of a
    session not yet started.  [reach_completeSet_late] is a [completeSet]
    whose [await] ended after other events: its handler closed over the
    earlier state [seen].  [reach_staleTick] is an interval callback that
    fires after the cells changed and before the effect is cleaned up.
    The screen offers "Next Exercise" only when [allSetsCompleted] and the
    two rest buttons only while the modal is shown; the relation does not
    rely on that. *)
Inductive reachable (workout : WorkoutWithExercises) : State → Prop :=
| reach_mount now :
    reachable workout (initialState now)
| reach_start getUser insert st :
    reachable workout st →
    reachable workout (initializeWorkoutSession workout st getUser insert).1
| reach_typeInto index input parsedFloat parsedInt st :
    reachable workout st →
    reachable workout (typeInto index input parsedFloat parsedInt st)
| reach_completeSet setIndex insert st :
    reachable workout st →
    reachable workout (completeSet workout setIndex insert st).1
| reach_completeSet_late seen setIndex set insert st :
    reachable workout seen →
    reachable workout st →
    sets seen !! setIndex = Some set →
    truthyQ (weight_lbs set) = true →
    truthyZ (reps set) = true →
    reachable workout (completeSetResume workout seen setIndex set insert st).1
| reach_tick st :
    reachable workout st → reachable workout (tick st)
| reach_staleTick st :
    reachable workout st → reachable workout (tickCallback st)
| reach_skipRest st :
    reachable workout st → reachable workout (skipRest st)
| reach_extendRest st :
    reachable workout st → reachable workout (extendRest st)
| reach_nextExercise endTime update st :
    reachable workout st →
    reachable workout (nextExercise workout endTime update st).1.

(** Every prescription of [workout] rests for a non-negative time. *)
Definition restsNonNegative (workout : WorkoutWithExercises) : Prop :=
  Forall (λ exercise, 0 ≤ we_rest_seconds exercise) (workout_exercises workout).

(** The rest a completed [set] would start is positive. *)
Definition startsPositiveRest (set : ActiveSet) : Prop :=
  0 < orDefault (rest_seconds set) 60.

(** What the timer cells keep throughout a session. *)
Definition timerInvariant (st : State) : Prop :=
  0 ≤ restTimer st ∧
  (isResting st = true → 0 < restTimer st) ∧
  Forall startsPositiveRest (sets st).

(** ** A sample workout *)

Definition exerciseNamed (name : string) : Exercise :=
  {| ex_id := "ex-" +:+ name; ex_name := name; ex_description := None;
     ex_muscle_groups := []; ex_equipment := None; ex_instructions := [];
     ex_created_at := "2025-01-01T00:00:00Z" |}.

Definition prescribe (name : string) (count : Z) (target : option Z)
    (rest : Z) (order : Z) : WorkoutExercise :=
  {| we_id := "we-" +:+ name; we_workout_id := "w-1";
     we_exercise_id := "ex-" +:+ name; we_sets := count; we_reps := target;
     we_rest_seconds := rest; we_order_index := order; we_notes := None;
     we_exercise := exerciseNamed name |}.

Definition workoutOf (exercises : list WorkoutExercise) : WorkoutWithExercises :=
  {| w_id := "w-1"; w_name := "Push Day"; w_description := None;
     w_user_id := "u-1"; w_is_public := false;
     w_created_at := "2025-01-01T00:00:00Z";
     w_updated_at := "2025-01-01T00:00:00Z";
     workout_exercises := exercises |}.

Definition benchPress : WorkoutExercise := prescribe "Bench Press" 2 (Some 5) 30 0.
Definition pushUp : WorkoutExercise := prescribe "Push Up" 1 None 0 1.
Definition pushDay : WorkoutWithExercises := workoutOf [benchPress; pushUp].

Definition created (id : string) : Awaited (Response SessionRow) :=
  Fulfilled {| resp_data := Some {| sr_id := id |}; resp_error := None |}.

Definition saved : Awaited (Response unit) :=
  Fulfilled {| resp_data := None; resp_error := None |}.

Definition refused (message : string) : Awaited (Response unit) :=
  Fulfilled {| resp_data := None; resp_error := Some message |}.

(** The session of [pushDay] right after a successful start ... *)
Definition pushDayStarted : State :=
  (initializeWorkoutSession pushDay (initialState 1000)
     (Fulfilled (Some "u-1")) (created "s-1")).1.

(** ... and once 135 lbs x 5 have been typed into the first card. *)
Definition pushDayFilled : State :=
  typeInto 0 RepsInput None (Some 5)
    (typeInto 0 WeightInput (Some (Q2Qc 135)) None pushDayStarted).

Definition pushDayResting : State := (completeSet pushDay 0 saved pushDayFilled).1.

(** "Next Exercise" pressed on [pushDay] while the session insert is
    pending ... *)
Definition pushDayPressed : State :=
  (nextExercise pushDay 2000 saved (initialState 1000)).1.

(** ... and the state once the insert has answered with the session. *)
Definition pushDayRaced : State :=
  (initializeWorkoutSession pushDay pushDayPressed
     (Fulfilled (Some "u-1")) (created "s-1")).1.

(** A one-exercise workout whose prescription has no rest between sets. *)
Definition plank : WorkoutExercise := prescribe "Plank" 2 None 0 0.
Definition coreDay : WorkoutWithExercises := workoutOf [plank].

Definition coreDayFilled : State :=
  typeInto 0 RepsInput None (Some 1)
    (typeInto 0 WeightInput (Some (Q2Qc 10)) None
       (initializeWorkoutSession coreDay (initialState 1000)
          (Fulfilled (Some "u-1")) (created "s-2")).1).

(** ** Texts and counters of the screens *)

(** [s.padStart(n, pad)] for a one-character [pad]. *)
Definition padStart (n : nat) (pad : Ascii.ascii) (s : string) : string :=
  String.string_of_list_ascii (replicate (n - String.length s) pad) +:+ s.

(** [formatTime] of the rest modal: [Math.floor] is the floor quotient,
    [%] the remainder with the sign of the dividend, [toString] the
    decimal numeral. *)
Definition formatTime (seconds : Z) : string :=
  let mins := seconds `div` 60 in
  let secs := seconds `rem` 60 in
  pretty mins +:+ ":" +:+ padStart 2 "0"%char (pretty secs).

(** The header clock, [Math.floor((Date.now() - startTime) / 60000)]. *)
Definition elapsedMinutes (now : Z) (st : State) : Z :=
  (now - startTime st) `div` 60000.

(** [sets.filter((set) => set.completed).length] *)
Definition completedSets (st : State) : nat :=
  length (List.filter completed (sets st)).

(** The rest line of an exercise card of [WorkoutDetailScreen]:
    [{Math.floor(rest / 60)}:{(rest % 60).toString().padStart(2, "0")} rest]. *)
Definition restLabel (item : WorkoutExercise) : string :=
  pretty (we_rest_seconds item `div` 60) +:+ ":"
  +:+ padStart 2 "0"%char (pretty (we_rest_seconds item `rem` 60)) +:+ " rest".

(** [workout_exercises.reduce((sum, exercise) => sum + exercise.sets, 0)] *)
Definition totalSets (workout : WorkoutWithExercises) : Z :=
  foldl (λ sum exercise, sum + we_sets exercise) 0 (workout_exercises workout).

(** [formatDuration] of the history list, applied to a session's
    [duration_minutes]. *)
Definition formatDuration (minutes : option Z) : string :=
  match minutes with
  | None => "N/A"
  | Some m =>
      if negb (truthyZ minutes) then "N/A"
      else if m <? 60 then pretty m +:+ "m"
      else pretty (m `div` 60) +:+ "h " +:+ pretty (m `rem` 60) +:+ "m"
  end.

(** ** What a session keeps *)

(** Two entries that differ at most in what the user enters and in
    [completed]. *)
Definition sameSlot (a b : ActiveSet) : Prop :=
  as_id a = as_id b ∧ exercise_id a = exercise_id b ∧
  exercise_name a = exercise_name b ∧ set_number a = set_number b ∧
  target_reps a = target_reps b ∧ rest_seconds a = rest_seconds b.

(** [sets] is the list instantiated for exercise [j] of the workout, up
    to inputs and completion: one entry per prescribed set, each in its
    slot. *)
Definition setsFrom (workout : WorkoutWithExercises) (j : nat) (st : State)
    : Prop :=
  ∃ exercise,
    workout_exercises workout !! j = Some exercise ∧
    length (sets st) = Z.to_nat (we_sets exercise) ∧
    ∀ k set, sets st !! k = Some set → sameSlot set (freshEntry exercise k).

(** The index never leaves the workout, and [sets] is empty (no session
    yet) or belongs to the current exercise or to exercise 0. *)
Definition sessionShape (workout : WorkoutWithExercises) (st : State) : Prop :=
  (currentExerciseIndex st = 0%nat
   ∨ (currentExerciseIndex st < length (workout_exercises workout))%nat) ∧
  (sets st = []
   ∨ setsFrom workout (currentExerciseIndex st) st
   ∨ setsFrom workout 0 st).

(** No stored input is the number 0. *)
Definition noZeroInput (set : ActiveSet) : Prop :=
  weight_lbs set ≠ Some 0%Qc ∧ reps set ≠ Some 0 ∧ rpe set ≠ Some 0.

(** A completed set carries a weight and a number of reps. *)
Definition completedHasInputs (set : ActiveSet) : Prop :=
  completed set = true →
  truthyQ (weight_lbs set) = true ∧ truthyZ (reps set) = true.

(** The states the screen can be in when every [completeSet] ends its
    [await] before the next event and no tick is stale; the answer of
    the start arrives at any moment, as in [reachable]. *)
Inductive reachableSync (workout : WorkoutWithExercises) : State → Prop :=
| sync_mount now :
    reachableSync workout (initialState now)
| sync_start getUser insert st :
    reachableSync workout st →
    reachableSync workout (initializeWorkoutSession workout st getUser insert).1
| sync_typeInto index input parsedFloat parsedInt st :
    reachableSync workout st →
    reachableSync workout (typeInto index input parsedFloat parsedInt st)
| sync_completeSet setIndex insert st :
    reachableSync workout st →
    reachableSync workout (completeSet workout setIndex insert st).1
| sync_tick st :
    reachableSync workout st → reachableSync workout (tick st)
| sync_skipRest st :
    reachableSync workout st → reachableSync workout (skipRest st)
| sync_extendRest st :
    reachableSync workout st → reachableSync workout (extendRest st)
| sync_nextExercise endTime update st :
    reachableSync workout st →
    reachableSync workout (nextExercise workout endTime update st).1.

(** [completeSet] pressed while the screen shows the render [seen], its
    [await] ending in the state [st]: the guard, the row and the two
    "last" tests read [seen], the updates apply to [st]. *)
Definition completeSetLate (workout : WorkoutWithExercises) (seen : State)
    (setIndex : nat) (insert : Awaited (Response unit)) (st : State)
    : State * list Effect :=
  match sets seen !! setIndex with
  | None => (st, [UncaughtTypeError])
  | Some set =>
      if negb (truthyQ (weight_lbs set)) || negb (truthyZ (reps set))
      then (st, [incompleteSet])
      else
        let '(st', out) :=
          completeSetResume workout seen setIndex set insert st in
        (st', InsertSessionSet (setRow (sessionId seen) set) :: out)
  end.

(** From [st] to [st'] the list of sets keeps its length and every
    completed set stays completed. *)
Definition keepsCompleted (st st' : State) : Prop :=
  length (sets st') = length (sets st) ∧
  ∀ i set, sets st !! i = Some set → completed set = true →
           completed <$> sets st' !! i = Some true.

(** * Properties *)

(** ** The setters touch one cell each *)

Lemma sets_updateSet i fv st :
  sets (updateSet i fv st)
  = imap (λ index set, if decide (index = i) then spread set fv else set) (sets st).
Proof. reflexivity. Qed.

Lemma lookup_updateSet_eq i fv st set :
  sets st !! i = Some set →
  sets (updateSet i fv st) !! i = Some (spread set fv).
Proof.
  intros Hi. rewrite sets_updateSet, list_lookup_imap, Hi. simpl.
  by rewrite decide_True.
Qed.

Lemma lookup_updateSet_ne i j fv st :
  j ≠ i → sets (updateSet i fv st) !! j = sets st !! j.
Proof.
  intros Hne. rewrite sets_updateSet, list_lookup_imap.
  destruct (sets st !! j) as [set|]; [simpl|done].
  by rewrite decide_False.
Qed.

Lemma length_updateSet i fv st :
  length (sets (updateSet i fv st)) = length (sets st).
Proof. rewrite sets_updateSet. apply length_imap. Qed.

(** Updating a position that holds no set changes nothing. *)
Lemma updateSet_out_of_range i fv st :
  sets st !! i = None → updateSet i fv st = st.
Proof.
  intros Hi. destruct st as [sid t0 idx l rt res modal].
  unfold updateSet, setSets. simpl in *. f_equal.
  apply list_eq. intros j. rewrite list_lookup_imap.
  destruct (l !! j) as [set|] eqn:Hj; [simpl|done].
  rewrite decide_False; [done|]. intros ->. congruence.
Qed.

(** ** [initializeSetsForExercise]: the loop and its result *)

Section Instantiate.
Variable exercise : WorkoutExercise.

(** With enough fuel the loop leaves through its condition, having
    pushed one entry for each of [i], [i+1], ..., [exercise.sets]. *)
Lemma pushSets_enough_fuel fuel i newSets :
  (Z.to_nat (we_sets exercise + 1 - i) ≤ fuel)%nat →
  pushSets exercise fuel i newSets
  = newSets ++ (newSet exercise <$> seqZ i (we_sets exercise + 1 - i)).
Proof.
  revert i newSets. induction fuel as [|fuel IH]; intros i newSets Hfuel.
  - simpl. rewrite seqZ_nil by lia. by rewrite app_nil_r.
  - simpl. destruct (Z.leb_spec i (we_sets exercise)) as [Hle|Hgt].
    + rewrite IH by lia.
      rewrite (seqZ_cons i) by lia. rewrite fmap_cons, <- app_assoc. simpl.
      do 3 f_equal. f_equal; lia.
    + rewrite seqZ_nil by lia. by rewrite app_nil_r.
Qed.

Lemma newSetsFor_seqZ :
  newSetsFor exercise = newSet exercise <$> seqZ 1 (we_sets exercise).
Proof.
  unfold newSetsFor. rewrite pushSets_enough_fuel by lia.
  simpl. do 2 f_equal. lia.
Qed.

(** More fuel than the loop's own bound does not change the result. *)
Lemma newSetsFor_fuel fuel :
  (Z.to_nat (we_sets exercise) ≤ fuel)%nat →
  pushSets exercise fuel 1 [] = newSetsFor exercise.
Proof.
  intros Hfuel. rewrite newSetsFor_seqZ, pushSets_enough_fuel by lia.
  simpl. do 2 f_equal. lia.
Qed.

Lemma newSetsFor_instantiated : instantiated exercise (newSetsFor exercise).
Proof.
  rewrite newSetsFor_seqZ. split.
  - by rewrite length_fmap, length_seqZ.
  - intros k Hk. rewrite list_lookup_fmap, lookup_seqZ_lt by lia.
    simpl. unfold newSet, freshEntry. do 2 f_equal. lia.
Qed.

Lemma newSetsFor_rest_seconds :
  Forall (λ set, rest_seconds set = Some (we_rest_seconds exercise))
         (newSetsFor exercise).
Proof.
  rewrite newSetsFor_seqZ. apply Forall_fmap, Forall_forall. by intros.
Qed.
End Instantiate.

(** A list that follows the rule is determined by it. *)
Lemma instantiated_unique exercise l1 l2 :
  instantiated exercise l1 → instantiated exercise l2 → l1 = l2.
Proof.
  intros [Hlen1 Hk1] [Hlen2 Hk2]. apply list_eq. intros k.
  destruct (decide (k < Z.to_nat (we_sets exercise))%nat) as [Hk|Hk].
  - by rewrite Hk1, Hk2.
  - rewrite !lookup_ge_None_2; [done|lia..].
Qed.

(** ** Starting a session *)

(** What a start does to the state: nothing, or it stores the session
    id, or it stores the id and replaces [sets] by the fresh sets of
    exercise 0.  It never writes the exercise index. *)
Lemma start_cases workout st getUser insert :
  (initializeWorkoutSession workout st getUser insert).1 = st
  ∨ (∃ id, (initializeWorkoutSession workout st getUser insert).1
           = setSessionId id st)
  ∨ (∃ id exercise,
       workout_exercises workout !! 0%nat = Some exercise ∧
       (initializeWorkoutSession workout st getUser insert).1
       = setSets (λ _, newSetsFor exercise) (setSessionId id st)).
Proof.
  unfold initializeWorkoutSession.
  destruct getUser as [[user|]|reason]; [|by left..].
  destruct insert as [[[[id]|] [err|]]|reason]; simpl; try by left.
  unfold initializeSetsForExercise.
  destruct (workout_exercises workout !! 0%nat) as [exercise|] eqn:Hfirst; simpl.
  - right. right. by exists id, exercise.
  - right. left. by exists id.
Qed.

(** A successful start on any state: the session id is stored, [sets]
    follows the instantiation rule for the first exercise, and the
    exercise index is the one the state had. *)
Lemma start_success workout st user id exercise :
  workout_exercises workout !! 0%nat = Some exercise →
  let out := (initializeWorkoutSession workout st (Fulfilled (Some user))
                (Fulfilled {| resp_data := Some {| sr_id := id |};
                              resp_error := None |})).1 in
  sessionId out = id ∧
  currentExerciseIndex out = currentExerciseIndex st ∧
  instantiated exercise (sets out).
Proof.
  intros Hfirst. simpl. unfold initializeSetsForExercise. rewrite Hfirst.
  simpl. split; [done|]. split; [done|]. apply newSetsFor_instantiated.
Qed.

(** When the answer arrives before anything was pressed, the index is
    still the initial 0. *)
Lemma start_untouched workout now user id exercise :
  workout_exercises workout !! 0%nat = Some exercise →
  let out := (initializeWorkoutSession workout (initialState now)
                (Fulfilled (Some user))
                (Fulfilled {| resp_data := Some {| sr_id := id |};
                              resp_error := None |})).1 in
  currentExerciseIndex out = 0%nat ∧ instantiated exercise (sets out).
Proof.
  intros Hfirst.
  destruct (start_success workout (initialState now) user id exercise Hfirst)
    as (_ & Hidx & Hsets).
  done.
Qed.

(** C7.  [pushDay] has two exercises.  While its session insert is
    pending the set list is empty, so "Next Exercise" is offered; it is
    pressed, and then the insert answers with the session.  The start
    succeeds: it stores the session id and builds the two sets of
    exercise 0 (Bench Press), but it never writes the exercise index, so
    the freshly started session stands at index 1 (Push Up), where the
    claim requires [currentExerciseIndex = 0]. *)
Theorem start_after_nextExercise_keeps_index :
  let out := initializeWorkoutSession pushDay pushDayPressed
               (Fulfilled (Some "u-1")) (created "s-1") in
  sets (initialState 1000) = [] ∧
  allSetsCompleted (initialState 1000) = true ∧
  currentExerciseIndex pushDayPressed = 1%nat ∧
  out.2 = [AuthGetUser; InsertSession "u-1" "w-1" "Push Day" 1000] ∧
  sessionId out.1 = "s-1" ∧
  currentExerciseIndex out.1 = 1%nat ∧
  workout_exercises pushDay !! 1%nat = Some pushUp ∧
  sets out.1 = newSetsFor benchPress ∧
  length (sets out.1) = 2%nat ∧
  exercise_name <$> sets out.1 !! 0%nat = Some "Bench Press".
Proof. vm_compute. done. Qed.

(** ** Advancing to the next exercise *)

(** Under the guard of [nextExercise] the next prescription exists: the
    [TypeError] branch of the model is never taken. *)
Lemma next_prescription_exists workout st :
  Z.of_nat (currentExerciseIndex st)
    < Z.of_nat (length (workout_exercises workout)) - 1 →
  is_Some (workout_exercises workout !! (currentExerciseIndex st + 1)%nat).
Proof. intros Hlt. apply lookup_lt_is_Some. lia. Qed.

Lemma finishWorkout_state workout endTime update st :
  (finishWorkout workout endTime update st).1 = st.
Proof. by destruct update. Qed.

Lemma finishWorkout_calls_update workout endTime update st :
  head (finishWorkout workout endTime update st).2
  = Some (UpdateSession (sessionId st) endTime
            (durationMinutes (startTime st) endTime)).
Proof. by destruct update. Qed.

(** C8.  [nextExercise] (the spec's [advanceExercise]): while the current
    index is not the last index of the exercise list, it adds exactly 1 to
    [currentExerciseIndex] and replaces [sets] by the list the
    instantiation rule gives for the new exercise (as many entries as sets
    are prescribed, numbered 1..count, inputs null, [completed] false),
    calling nothing; at the last index it is [finishWorkout]: the
    "finalize session" update is issued and the state, in particular
    [currentExerciseIndex], stays as it was. *)
Theorem nextExercise_advances_or_finishes workout endTime update st :
  (Z.of_nat (currentExerciseIndex st)
     < Z.of_nat (length (workout_exercises workout)) - 1 →
   ∃ exercise,
     workout_exercises workout !! (currentExerciseIndex st + 1)%nat
       = Some exercise ∧
     (nextExercise workout endTime update st).2 = [] ∧
     let st' := (nextExercise workout endTime update st).1 in
     currentExerciseIndex st' = (currentExerciseIndex st + 1)%nat ∧
     length (sets st') = Z.to_nat (we_sets exercise) ∧
     (∀ k : nat, (k < Z.to_nat (we_sets exercise))%nat →
        sets st' !! k = Some (freshEntry exercise k)) ∧
     sets st' = newSetsFor exercise) ∧
  (Z.of_nat (currentExerciseIndex st)
     = Z.of_nat (length (workout_exercises workout)) - 1 →
   nextExercise workout endTime update st
     = finishWorkout workout endTime update st ∧
   head (nextExercise workout endTime update st).2
     = Some (UpdateSession (sessionId st) endTime
               (durationMinutes (startTime st) endTime)) ∧
   (nextExercise workout endTime update st).1 = st).
Proof.
  split.
  - intros Hlt. destruct (next_prescription_exists workout st Hlt) as [e He].
    exists e. unfold nextExercise, initializeSetsForExercise.
    rewrite bool_decide_eq_true_2 by done. rewrite He. simpl.
    destruct (newSetsFor_instantiated e) as [Hlen Hk]. done.
  - intros Hlast. unfold nextExercise.
    rewrite bool_decide_eq_false_2 by lia.
    by rewrite finishWorkout_calls_update, finishWorkout_state.
Qed.

Lemma nextExercise_advances_or_finishes_witness :
  (∃ exercise,
     workout_exercises pushDay !! 1%nat = Some exercise ∧
     (nextExercise pushDay 200000 saved pushDayResting).2 = [] ∧
     let st' := (nextExercise pushDay 200000 saved pushDayResting).1 in
     currentExerciseIndex st' = 1%nat ∧
     length (sets st') = Z.to_nat (we_sets exercise) ∧
     (∀ k : nat, (k < Z.to_nat (we_sets exercise))%nat →
        sets st' !! k = Some (freshEntry exercise k)) ∧
     sets st' = newSetsFor exercise) ∧
  (let last := (nextExercise pushDay 200000 saved pushDayResting).1 in
   nextExercise pushDay 260000 saved last
     = finishWorkout pushDay 260000 saved last ∧
   head (nextExercise pushDay 260000 saved last).2
     = Some (UpdateSession "s-1" 260000 4) ∧
   (nextExercise pushDay 260000 saved last).1 = last).
Proof.
  split.
  - apply (proj1 (nextExercise_advances_or_finishes pushDay 200000 saved
                    pushDayResting)).
    vm_compute. reflexivity.
  - apply (proj2 (nextExercise_advances_or_finishes pushDay 260000 saved
                    (nextExercise pushDay 200000 saved pushDayResting).1)).
    vm_compute. reflexivity.
Defined.

(** ** Completing a set *)

Section CompleteSet.
Variable workout : WorkoutWithExercises.

(** The guard [!set.weight_lbs || !set.reps]: the handler stops at the
    alert, before the insert. *)
Lemma completeSet_falsy i insert st set :
  sets st !! i = Some set →
  truthyQ (weight_lbs set) = false ∨ truthyZ (reps set) = false →
  completeSet workout i insert st = (st, [incompleteSet]).
Proof.
  intros Hi Hfalsy. unfold completeSet. rewrite Hi.
  by destruct Hfalsy as [-> | ->]; rewrite ?orb_true_r.
Qed.

(** Past the guard the insert is issued first, whatever comes back. *)
Lemma completeSet_truthy i insert st set :
  sets st !! i = Some set →
  truthyQ (weight_lbs set) = true →
  truthyZ (reps set) = true →
  completeSet workout i insert st
  = ((completeSetResume workout st i set insert st).1,
     InsertSessionSet (setRow (sessionId st) set)
       :: (completeSetResume workout st i set insert st).2).
Proof.
  intros Hi Hw Hr. unfold completeSet. rewrite Hi, Hw, Hr. simpl.
  by destruct (completeSetResume workout st i set insert st).
Qed.

(** A rejected insert promise is caught: the state is kept and the
    failure is reported. *)
Lemma completeSet_rejected i reason st set :
  sets st !! i = Some set →
  truthyQ (weight_lbs set) = true →
  truthyZ (reps set) = true →
  completeSet workout i (Rejected reason) st
  = (st, InsertSessionSet (setRow (sessionId st) set) :: saveFailed).
Proof. intros Hi Hw Hr. by rewrite (completeSet_truthy _ _ _ set). Qed.

(** A fulfilled insert promise is taken as success without a look at
    the answer: an answer carrying an error and one carrying none leave
    the same state and trace. *)
Lemma completeSet_ignores_response i r1 r2 st :
  completeSet workout i (Fulfilled r1) st
  = completeSet workout i (Fulfilled r2) st.
Proof. reflexivity. Qed.
End CompleteSet.

(** C5.  If [weight_lbs] or [reps] of [sets[i]] is null, [completeSet(i)]
    answers with the validation alert only: no insert is issued, whatever
    the storage would have answered, and the whole state is unchanged (so
    the set is still not completed and no rest timer has started). *)
Theorem completeSet_null_input_rejected workout i insert st set :
  sets st !! i = Some set →
  weight_lbs set = None ∨ reps set = None →
  completeSet workout i insert st
    = (st, [AlertAlert "Incomplete Set"
              "Please enter weight and reps before completing the set" []]) ∧
  (∀ row, InsertSessionSet row ∉ (completeSet workout i insert st).2) ∧
  (completeSet workout i insert st).1 = st.
Proof.
  intros Hi Hnull.
  rewrite (completeSet_falsy workout i insert st set Hi).
  - split; [done|]. split; [|done]. intros row Hin.
    apply list_elem_of_singleton in Hin. discriminate.
  - destruct Hnull as [-> | ->]; auto.
Qed.

Lemma completeSet_null_input_rejected_witness :
  sets pushDayStarted !! 0%nat = Some (freshEntry benchPress 0) ∧
  (weight_lbs (freshEntry benchPress 0) = None
   ∨ reps (freshEntry benchPress 0) = None) ∧
  completeSet pushDay 0 saved pushDayStarted
    = (pushDayStarted,
       [AlertAlert "Incomplete Set"
          "Please enter weight and reps before completing the set" []]) ∧
  (∀ row, InsertSessionSet row ∉ (completeSet pushDay 0 saved pushDayStarted).2) ∧
  (completeSet pushDay 0 saved pushDayStarted).1 = pushDayStarted.
Proof.
  split; [reflexivity|]. split; [left; reflexivity|].
  apply (completeSet_null_input_rejected pushDay 0 saved pushDayStarted
           (freshEntry benchPress 0)).
  - reflexivity.
  - left. reflexivity.
Defined.

(** C10.  The guard tests truthiness, so [completeSet(i)] rejects the set
    in the same way (validation alert only, no insert, state unchanged)
    when [weight_lbs] or [reps] is 0 as when it is null: no call of
    [completeSet] completes a set whose weight or reps is zero. *)
Theorem completeSet_zero_input_rejected workout i insert st set :
  sets st !! i = Some set →
  weight_lbs set = None ∨ weight_lbs set = Some 0%Qc
  ∨ reps set = None ∨ reps set = Some 0 →
  completeSet workout i insert st
    = (st, [AlertAlert "Incomplete Set"
              "Please enter weight and reps before completing the set" []]) ∧
  (∀ row, InsertSessionSet row ∉ (completeSet workout i insert st).2) ∧
  sets (completeSet workout i insert st).1 !! i = Some set.
Proof.
  intros Hi Hzero.
  rewrite (completeSet_falsy workout i insert st set Hi).
  - split; [done|]. split; [|done]. intros row Hin.
    apply list_elem_of_singleton in Hin. discriminate.
  - destruct Hzero as [-> | [-> | [-> | ->]]]; auto.
Qed.

Lemma completeSet_zero_input_rejected_witness :
  let bodyweight :=
    updateSet 0 (F_reps (Some 5))
      (updateSet 0 (F_weight_lbs (Some 0%Qc)) pushDayStarted) in
  let set := spread (spread (freshEntry benchPress 0) (F_weight_lbs (Some 0%Qc)))
               (F_reps (Some 5)) in
  sets bodyweight !! 0%nat = Some set ∧
  completeSet pushDay 0 saved bodyweight
    = (bodyweight,
       [AlertAlert "Incomplete Set"
          "Please enter weight and reps before completing the set" []]) ∧
  (∀ row, InsertSessionSet row ∉ (completeSet pushDay 0 saved bodyweight).2) ∧
  sets (completeSet pushDay 0 saved bodyweight).1 !! 0%nat = Some set.
Proof.
  intros bodyweight set. split; [reflexivity|].
  apply (completeSet_zero_input_rejected pushDay 0 saved bodyweight set).
  - reflexivity.
  - right. left. reflexivity.
Defined.

(** C1.  The storage answers the insert of the first set of [pushDay]
    (135 lbs x 5 typed in) with an error object, as a failed insert does.
    [completeSet] does not read the answer: it reports nothing, marks the
    set completed and starts the rest timer, where the claim requires the
    set to stay editable and the error to be surfaced.  The start of the
    session, in the same file, does check the answer
    ([if (error) throw error]). *)
Theorem completeSet_error_answer_marks_completed :
  let failed := refused "new row violates row-level security policy" in
  let out := completeSet pushDay 0 failed pushDayFilled in
  completed <$> sets pushDayFilled !! 0%nat = Some false ∧
  completed <$> sets out.1 !! 0%nat = Some true ∧
  isResting out.1 = true ∧
  out.2 = [InsertSessionSet
             {| row_session_id := "s-1";
                row_exercise_id := "ex-Bench Press";
                row_exercise_name := "Bench Press";
                row_set_number := 1;
                row_weight_lbs := Some (Q2Qc 135);
                row_reps := Some 5;
                row_rpe := None;
                row_completed := true |}] ∧
  out = completeSet pushDay 0 saved pushDayFilled.
Proof. vm_compute. done. Qed.

(** ** The rest timer after a completed set *)

(** The first of the two planks of [coreDay] is prescribed 0 seconds of
    rest.  Completing it starts the timer at 60, not at the prescribed 0:
    the claim that [restTimer] equals the set's [rest_seconds] (60 only
    when unset) fails here. *)
Lemma completeSet_zero_rest_starts_at_60 :
  rest_seconds <$> sets coreDayFilled !! 0%nat = Some (Some 0) ∧
  specRestTime <$> sets coreDayFilled !! 0%nat = Some 0 ∧
  length (sets coreDayFilled) = 2%nat ∧
  completed <$> sets (completeSet coreDay 0 saved coreDayFilled).1 !! 0%nat
    = Some true ∧
  isResting (completeSet coreDay 0 saved coreDayFilled).1 = true ∧
  restTimer (completeSet coreDay 0 saved coreDayFilled).1 = 60 ∧
  ¬ (Some (restTimer (completeSet coreDay 0 saved coreDayFilled).1)
     = specRestTime <$> sets coreDayFilled !! 0%nat).
Proof. vm_compute. repeat split; try reflexivity. discriminate. Qed.

(** C4 (amended).  After a [completeSet(i)] whose insert succeeded, unless
    set [i] is the last set of the last exercise, [isResting] is true, the
    modal is shown and [restTimer] is the set's [rest_seconds] when that is
    set and not 0, and 60 when it is unset or 0; for the last set of the
    last exercise the timer cells are left as they were. *)
Theorem completeSet_starts_rest_timer workout i r st set :
  sets st !! i = Some set →
  truthyQ (weight_lbs set) = true →
  truthyZ (reps set) = true →
  resp_error r = None →
  let st' := (completeSet workout i (Fulfilled r) st).1 in
  completed <$> sets st' !! i = Some true ∧
  (¬ (S i = length (sets st) ∧
      S (currentExerciseIndex st) = length (workout_exercises workout)) →
   isResting st' = true ∧ showRestModal st' = true ∧
   (∀ secs, rest_seconds set = Some secs → secs ≠ 0 → restTimer st' = secs) ∧
   (rest_seconds set = None ∨ rest_seconds set = Some 0 → restTimer st' = 60)) ∧
  (S i = length (sets st) ∧
   S (currentExerciseIndex st) = length (workout_exercises workout) →
   isResting st' = isResting st ∧ restTimer st' = restTimer st ∧
   showRestModal st' = showRestModal st).
Proof.
  intros Hi Hw Hr _ st'. subst st'.
  rewrite (completeSet_truthy workout i _ st set Hi Hw Hr). simpl.
  set (lastSet := bool_decide (Z.of_nat i = Z.of_nat (length (sets st)) - 1)).
  set (lastEx := bool_decide (Z.of_nat (currentExerciseIndex st)
                   = Z.of_nat (length (workout_exercises workout)) - 1)).
  assert (Hdone : ∀ s, completed <$> sets (updateSet i (F_completed true) s) !! i
                       = Some true ∨ sets s !! i = None).
  { intros s. destruct (sets s !! i) as [x|] eqn:Hx; [left|by right].
    rewrite (lookup_updateSet_eq i _ s x Hx). by destruct x. }
  destruct (negb lastSet || negb lastEx) eqn:Hrest; simpl.
  - split; [destruct (Hdone st) as [H|H]; [exact H|congruence]|].
    split; [|intros [Hs He]]; cycle 1.
    { apply orb_true_iff in Hrest as [H|H]; apply negb_true_iff in H;
        subst lastSet lastEx; apply bool_decide_eq_false in H; lia. }
    intros _. repeat split.
    + intros secs -> Hne. simpl. by rewrite (proj2 (Z.eqb_neq secs 0) Hne).
    + by intros [-> | ->].
  - split; [destruct (Hdone st) as [H|H]; [exact H|congruence]|].
    split; [|done]. intros Hnot. exfalso. apply Hnot.
    apply orb_false_iff in Hrest as [H1 H2].
    apply negb_false_iff in H1, H2. subst lastSet lastEx.
    apply bool_decide_eq_true in H1, H2. lia.
Qed.

Lemma completeSet_starts_rest_timer_witness :
  let st' := (completeSet pushDay 0 saved pushDayFilled).1 in
  completed <$> sets st' !! 0%nat = Some true ∧
  (¬ (1%nat = length (sets pushDayFilled) ∧
      S (currentExerciseIndex pushDayFilled)
        = length (workout_exercises pushDay)) →
   isResting st' = true ∧ showRestModal st' = true ∧
   (∀ secs, Some 30 = Some secs → secs ≠ 0 → restTimer st' = secs) ∧
   (Some 30 = None ∨ Some 30 = Some 0 → restTimer st' = 60)) ∧
  (1%nat = length (sets pushDayFilled) ∧
   S (currentExerciseIndex pushDayFilled) = length (workout_exercises pushDay) →
   isResting st' = isResting pushDayFilled ∧
   restTimer st' = restTimer pushDayFilled ∧
   showRestModal st' = showRestModal pushDayFilled).
Proof.
  apply (completeSet_starts_rest_timer pushDay 0
           {| resp_data := None; resp_error := None |} pushDayFilled
           (spread (spread (freshEntry benchPress 0)
                      (F_weight_lbs (Some (Q2Qc 135)))) (F_reps (Some 5))));
    reflexivity.
Defined.

(** ** Counting down *)

Lemma tick_resting st :
  isResting st = true → 0 < restTimer st → tick st = tickCallback st.
Proof.
  intros Hres Hpos. unfold tick, intervalActive. rewrite Hres. simpl.
  by rewrite (proj2 (Z.ltb_lt 0 (restTimer st)) Hpos).
Qed.

Lemma tick_idle st : isResting st = false → tick st = st.
Proof. intros Hres. unfold tick, intervalActive. by rewrite Hres. Qed.

(** One tick of a running countdown. *)
Lemma tick_step st :
  isResting st = true → 0 < restTimer st →
  restTimer (tick st) = restTimer st - 1 ∧
  isResting (tick st) = bool_decide (1 < restTimer st).
Proof.
  intros Hres Hpos. rewrite tick_resting by done. unfold tickCallback.
  destruct (Z.leb_spec (restTimer st) 1) as [Hle|Hgt]; simpl.
  - rewrite bool_decide_eq_false_2 by lia. split; [lia|done].
  - rewrite bool_decide_eq_true_2 by lia. done.
Qed.

Lemma tick_countdown n st :
  isResting st = true → restTimer st = Z.of_nat (S n) →
  restTimer (Nat.iter (S n) tick st) = 0 ∧
  isResting (Nat.iter (S n) tick st) = false.
Proof.
  revert st. induction n as [|n IH]; intros st Hres Htimer.
  - simpl. destruct (tick_step st) as [Ht Hr]; [done|lia|].
    rewrite Ht, Hr, Htimer. split; [lia|]. by rewrite bool_decide_eq_false_2 by lia.
  - rewrite Nat.iter_succ_r. destruct (tick_step st) as [Ht Hr]; [done|lia|].
    apply IH.
    + rewrite Hr. apply bool_decide_eq_true_2. lia.
    + lia.
Qed.

(** C6.  While [isResting] (with time remaining) a tick takes exactly 1
    off [restTimer], keeps [isResting] while time remains and clears it
    when [restTimer] reaches 0; so from [isResting] with [restTimer = n > 0],
    [n] ticks end with [restTimer = 0] and [isResting = false]. *)
Theorem tick_counts_down_to_zero (n : nat) st :
  isResting st = true →
  restTimer st = Z.of_nat n →
  (0 < n)%nat →
  restTimer (tick st) = restTimer st - 1 ∧
  (restTimer (tick st) = 0 → isResting (tick st) = false) ∧
  (restTimer (tick st) ≠ 0 → isResting (tick st) = true) ∧
  restTimer (Nat.iter n tick st) = 0 ∧
  isResting (Nat.iter n tick st) = false.
Proof.
  intros Hres Htimer Hn. destruct (tick_step st) as [Ht Hr]; [done|lia|].
  rewrite Ht, Hr. split; [done|].
  split; [intros ?; apply bool_decide_eq_false_2; lia|].
  split; [intros ?; apply bool_decide_eq_true_2; lia|].
  destruct n as [|n]; [lia|]. by apply tick_countdown.
Qed.

Lemma tick_counts_down_to_zero_witness :
  isResting pushDayResting = true ∧
  restTimer pushDayResting = Z.of_nat 30 ∧
  restTimer (tick pushDayResting) = restTimer pushDayResting - 1 ∧
  (restTimer (tick pushDayResting) = 0 → isResting (tick pushDayResting) = false) ∧
  (restTimer (tick pushDayResting) ≠ 0 → isResting (tick pushDayResting) = true) ∧
  restTimer (Nat.iter 30 tick pushDayResting) = 0 ∧
  isResting (Nat.iter 30 tick pushDayResting) = false.
Proof.
  split; [reflexivity|]. split; [reflexivity|].
  apply (tick_counts_down_to_zero 30 pushDayResting).
  - reflexivity.
  - reflexivity.
  - lia.
Defined.

(** ** Skipping the rest *)

(** "Skip Rest" pressed 30 seconds before the end of the rest that follows
    the first bench-press set: [isResting] is cleared, [restTimer] still
    reads 30. *)
Lemma skipRest_leaves_restTimer :
  restTimer pushDayResting = 30 ∧
  isResting pushDayResting = true ∧
  restTimer (skipRest pushDayResting) = 30 ∧
  ¬ (restTimer (skipRest pushDayResting) = 0 ∧
     isResting (skipRest pushDayResting) = false).
Proof. vm_compute. repeat split; try reflexivity. intros [H _]. discriminate. Qed.

(** C2 (amended).  In every state, "Skip Rest" clears [isResting] and
    hides the modal in one call, whatever time remains, and leaves
    [restTimer] (and every other cell) at its value; it never runs the
    interval afterwards, and pressing it again changes nothing. *)
Theorem skipRest_stops_resting st :
  isResting (skipRest st) = false ∧
  showRestModal (skipRest st) = false ∧
  restTimer (skipRest st) = restTimer st ∧
  sets (skipRest st) = sets st ∧
  currentExerciseIndex (skipRest st) = currentExerciseIndex st ∧
  sessionId (skipRest st) = sessionId st ∧
  startTime (skipRest st) = startTime st ∧
  intervalActive (skipRest st) = false ∧
  tick (skipRest st) = skipRest st ∧
  skipRest (skipRest st) = skipRest st.
Proof. by destruct st. Qed.

(** ** Editing a set *)

(** The first bench-press set is completed in [pushDayResting];
    [updateSet] still overwrites its weight. *)
Lemma updateSet_changes_completed_set :
  completed <$> sets pushDayResting !! 0%nat = Some true ∧
  weight_lbs <$> sets pushDayResting !! 0%nat = Some (Some (Q2Qc 135)) ∧
  weight_lbs <$> sets (updateSet 0 (F_weight_lbs (Some (Q2Qc 225)))
                         pushDayResting) !! 0%nat
    = Some (Some (Q2Qc 225)) ∧
  updateSet 0 (F_weight_lbs (Some (Q2Qc 225))) pushDayResting ≠ pushDayResting.
Proof.
  vm_compute. repeat split; try reflexivity. intros H. discriminate H.
Qed.

(** C9 (amended).  [updateSet] has no guard on [completed]: on any set,
    completed or not, it replaces the named field of the set at
    [setIndex] and nothing else, raising nothing and calling nothing (at
    an index that holds no set it changes nothing).  Completed sets are
    kept from edits by the screen, whose inputs are editable only while
    [completed] is false: a text change aimed at a completed set leaves
    the whole state unchanged. *)
Theorem updateSet_replaces_one_field setIndex fv st :
  (∀ set, sets st !! setIndex = Some set →
          sets (updateSet setIndex fv st) !! setIndex = Some (spread set fv)) ∧
  (sets st !! setIndex = None → updateSet setIndex fv st = st) ∧
  (∀ j, j ≠ setIndex → sets (updateSet setIndex fv st) !! j = sets st !! j) ∧
  length (sets (updateSet setIndex fv st)) = length (sets st) ∧
  updateSet setIndex fv st = setSets (λ _, sets (updateSet setIndex fv st)) st ∧
  (∀ set input parsedFloat parsedInt,
     sets st !! setIndex = Some set → completed set = true →
     typeInto setIndex input parsedFloat parsedInt st = st) ∧
  (∀ set parsedFloat parsedInt,
     sets st !! setIndex = Some set → completed set = false →
     typeInto setIndex WeightInput parsedFloat parsedInt st
     = updateSet setIndex (F_weight_lbs (nullIfFalsyQ parsedFloat)) st).
Proof.
  split; [intros set; apply lookup_updateSet_eq|].
  split; [apply updateSet_out_of_range|].
  split; [intros j; apply lookup_updateSet_ne|].
  split; [apply length_updateSet|].
  split; [reflexivity|].
  split.
  - intros set input pf pi Hi Hdone. unfold typeInto, editable.
    by rewrite Hi, Hdone.
  - intros set pf pi Hi Hopen. unfold typeInto, editable.
    by rewrite Hi, Hopen.
Qed.

Lemma updateSet_replaces_one_field_witness :
  sets pushDayResting !! 0%nat
    = Some (spread (spread (spread (freshEntry benchPress 0)
                              (F_weight_lbs (Some (Q2Qc 135))))
                      (F_reps (Some 5))) (F_completed true)) ∧
  typeInto 0 WeightInput (Some (Q2Qc 225)) None pushDayResting = pushDayResting ∧
  typeInto 1 WeightInput (Some (Q2Qc 225)) None pushDayResting
    = updateSet 1 (F_weight_lbs (Some (Q2Qc 225))) pushDayResting.
Proof.
  split; [reflexivity|]. split.
  - apply (proj1 (proj2 (proj2 (proj2 (proj2 (proj2
             (updateSet_replaces_one_field 0 (F_rpe None) pushDayResting))))))
           (spread (spread (spread (freshEntry benchPress 0)
                              (F_weight_lbs (Some (Q2Qc 135))))
                      (F_reps (Some 5))) (F_completed true)));
      reflexivity.
  - apply (proj2 (proj2 (proj2 (proj2 (proj2 (proj2
             (updateSet_replaces_one_field 1 (F_rpe None) pushDayResting))))))
           (freshEntry benchPress 1));
      reflexivity.
Defined.

(** ** The timer cells along a session *)

(** The path mount, start, type 135 and 5, complete the set, skip the
    rest, is one the screen offers; it ends with [restTimer = 30] and
    [isResting = false]. *)
Lemma skipped_rest_reachable :
  reachable pushDay (skipRest pushDayResting) ∧
  restTimer (skipRest pushDayResting) = 30 ∧
  isResting (skipRest pushDayResting) = false ∧
  ¬ (restTimer (skipRest pushDayResting) ≠ 0
     ↔ isResting (skipRest pushDayResting) = true).
Proof.
  split; [|split; [reflexivity|split; [reflexivity|]]].
  - apply reach_skipRest. unfold pushDayResting. apply reach_completeSet.
    unfold pushDayFilled. do 2 apply reach_typeInto.
    unfold pushDayStarted. apply reach_start, reach_mount.
  - intros [Hto _]. discriminate Hto. intros H. discriminate H.
Qed.

Section TimerInvariant.
Variable workout : WorkoutWithExercises.
Hypothesis Hrests : restsNonNegative workout.

Lemma newSetsFor_startsPositiveRest exercise :
  exercise ∈ workout_exercises workout →
  Forall startsPositiveRest (newSetsFor exercise).
Proof.
  intros Hin.
  assert (0 ≤ we_rest_seconds exercise) as Hnn
    by exact (proj1 (Forall_forall _ _) Hrests exercise Hin).
  eapply Forall_impl; [apply newSetsFor_rest_seconds|].
  intros set Hset. unfold startsPositiveRest. rewrite Hset. simpl.
  destruct (Z.eqb_spec (we_rest_seconds exercise) 0); lia.
Qed.

Lemma updateSet_startsPositiveRest i fv st :
  (∀ set, rest_seconds (spread set fv) = rest_seconds set) →
  Forall startsPositiveRest (sets st) →
  Forall startsPositiveRest (sets (updateSet i fv st)).
Proof.
  intros Hkeep Hall. apply Forall_lookup. intros j set.
  rewrite sets_updateSet, list_lookup_imap.
  destruct (sets st !! j) as [old|] eqn:Hold; [simpl|done].
  pose proof (proj1 (Forall_lookup _ _) Hall j old Hold) as Hpos.
  intros [= <-]. case_decide; [|done].
  unfold startsPositiveRest. by rewrite Hkeep.
Qed.

Lemma timerInvariant_updateSet i fv st :
  (∀ set, rest_seconds (spread set fv) = rest_seconds set) →
  timerInvariant st → timerInvariant (updateSet i fv st).
Proof.
  intros Hkeep (Hnn & Hres & Hall).
  split; [done|]. split; [done|]. by apply updateSet_startsPositiveRest.
Qed.

Lemma timerInvariant_typeInto i input parsedFloat parsedInt st :
  timerInvariant st → timerInvariant (typeInto i input parsedFloat parsedInt st).
Proof.
  intros Hinv. unfold typeInto.
  destruct (sets st !! i) as [set|]; [|done].
  destruct (editable set); [|done].
  destruct input; simpl; apply timerInvariant_updateSet; try done;
    by intros [].
Qed.

Lemma timerInvariant_completeSetResume seen i set insert st :
  sets seen !! i = Some set →
  timerInvariant seen → timerInvariant st →
  timerInvariant (completeSetResume workout seen i set insert st).1.
Proof.
  intros Hi (_ & _ & Hseen) Hinv.
  pose proof (proj1 (Forall_lookup _ _) Hseen i set Hi) as Hpos.
  unfold startsPositiveRest in Hpos.
  destruct insert as [r|reason]; simpl; [|done].
  assert (timerInvariant (updateSet i (F_completed true) st)) as (Hnn & Hres & Hall)
    by (apply timerInvariant_updateSet; [by intros []|done]).
  match goal with |- context [if ?b then _ else _] => destruct b end; simpl.
  - split; [simpl; lia|]. split; [simpl; intros _; lia|done].
  - done.
Qed.

Lemma timerInvariant_completeSet i insert st :
  timerInvariant st → timerInvariant (completeSet workout i insert st).1.
Proof.
  intros Hinv. unfold completeSet.
  destruct (sets st !! i) as [set|] eqn:Hi; [|done].
  destruct (negb (truthyQ (weight_lbs set)) || negb (truthyZ (reps set)));
    [done|].
  pose proof (timerInvariant_completeSetResume st i set insert st Hi Hinv Hinv).
  by destruct (completeSetResume workout st i set insert st).
Qed.

Lemma timerInvariant_tick st : timerInvariant st → timerInvariant (tick st).
Proof.
  intros (Hnn & Hres & Hall). unfold tick.
  destruct (intervalActive st); [|done]. unfold tickCallback.
  destruct (Z.leb_spec (restTimer st) 1); unfold timerInvariant; simpl.
  - done.
  - split; [lia|]. split; [intros _; lia|done].
Qed.

Lemma timerInvariant_skipRest st : timerInvariant st → timerInvariant (skipRest st).
Proof. intros (Hnn & Hres & Hall). split; [done|]. split; done. Qed.

Lemma timerInvariant_extendRest st :
  timerInvariant st → timerInvariant (extendRest st).
Proof.
  intros (Hnn & Hres & Hall). split; [simpl; lia|].
  split; [simpl; intros H; specialize (Hres H); lia|done].
Qed.

Lemma timerInvariant_nextExercise endTime update st :
  timerInvariant st →
  timerInvariant (nextExercise workout endTime update st).1.
Proof.
  intros (Hnn & Hres & Hall). unfold nextExercise.
  case_bool_decide; [|by rewrite finishWorkout_state].
  unfold initializeSetsForExercise.
  destruct (workout_exercises workout !! _) as [exercise|] eqn:He; simpl.
  - split; [done|]. split; [done|].
    apply newSetsFor_startsPositiveRest. by eapply list_elem_of_lookup_2.
  - done.
Qed.

Lemma timerInvariant_start getUser insert st :
  timerInvariant st →
  timerInvariant (initializeWorkoutSession workout st getUser insert).1.
Proof.
  intros (Hnn & Hres & Hall).
  destruct (start_cases workout st getUser insert)
    as [-> | [(id & ->) | (id & exercise & Hfirst & ->)]]; [done|done|].
  split; [done|]. split; [done|]. simpl.
  apply newSetsFor_startsPositiveRest. by eapply list_elem_of_lookup_2.
Qed.

Lemma timerInvariant_tickCallback st :
  timerInvariant st → timerInvariant (tickCallback st).
Proof.
  intros (Hnn & Hres & Hall). unfold tickCallback.
  destruct (Z.leb_spec (restTimer st) 1); unfold timerInvariant; simpl.
  - done.
  - split; [lia|]. split; [intros _; lia|done].
Qed.

Lemma reachable_timerInvariant st : reachable workout st → timerInvariant st.
Proof.
  induction 1.
  - split; [done|]. split; [done|]. simpl. constructor.
  - by apply timerInvariant_start.
  - by apply timerInvariant_typeInto.
  - by apply timerInvariant_completeSet.
  - by apply timerInvariant_completeSetResume.
  - by apply timerInvariant_tick.
  - by apply timerInvariant_tickCallback.
  - by apply timerInvariant_skipRest.
  - by apply timerInvariant_extendRest.
  - by apply timerInvariant_nextExercise.
Qed.
End TimerInvariant.

(** C3 (amended).  When no prescription of the workout has a negative
    rest, every state the screen reaches from its mount, before and
    after the start of the session, by typing into the inputs,
    [completeSet] (also one whose insert ends after later events), [tick]
    (also a stale one), "Skip Rest", "+30s" and [nextExercise] (so every
    state reachable from a freshly started session) has [restTimer >= 0],
    and [isResting] true only with [restTimer > 0].
    The converse is not kept: [restTimer] may be non-zero while
    [isResting] is false. *)
Theorem resting_implies_timer_positive workout st :
  restsNonNegative workout →
  reachable workout st →
  0 ≤ restTimer st ∧ (isResting st = true → 0 < restTimer st).
Proof.
  intros Hrests Hreach.
  destruct (reachable_timerInvariant workout Hrests st Hreach) as (Hnn & Hres & _).
  done.
Qed.

Lemma resting_implies_timer_positive_witness :
  restsNonNegative pushDay ∧
  reachable pushDay pushDayResting ∧
  0 ≤ restTimer pushDayResting ∧
  (isResting pushDayResting = true → 0 < restTimer pushDayResting).
Proof.
  assert (restsNonNegative pushDay) as Hrests.
  { unfold restsNonNegative. simpl. repeat constructor; simpl; lia. }
  assert (reachable pushDay pushDayResting) as Hreach.
  { unfold pushDayResting. apply reach_completeSet.
    unfold pushDayFilled. do 2 apply reach_typeInto.
    unfold pushDayStarted. apply reach_start, reach_mount. }
  split; [exact Hrests|]. split; [exact Hreach|].
  exact (resting_implies_timer_positive pushDay pushDayResting Hrests Hreach).
Defined.


(** * Further properties of the screens *)

(** ** Texts *)

Lemma append_assoc (s1 s2 s3 : string) :
  (s1 +:+ s2) +:+ s3 = s1 +:+ s2 +:+ s3.
Proof.
  induction s1 as [|c s1 IH]; [done|].
  change (String c ((s1 +:+ s2) +:+ s3) = String c (s1 +:+ s2 +:+ s3)).
  by rewrite IH.
Qed.

(** A number below 60 padded to two places is its tens digit followed by
    its units digit. *)
Lemma padStart_two_digits secs :
  0 ≤ secs < 60 →
  padStart 2 "0"%char (pretty secs)
  = pretty (secs `div` 10) +:+ pretty (secs `mod` 10).
Proof.
  intros Hsecs.
  assert (Forall (λ n, padStart 2 "0"%char (pretty n)
                       = pretty (n `div` 10) +:+ pretty (n `mod` 10))
                 (seqZ 0 60)) as Hall
    by (eapply (bool_decide_unpack _); vm_compute; exact I).
  apply (proj1 (Forall_forall _ _) Hall). apply elem_of_seqZ. lia.
Qed.

(** X1.  For a non-negative number of seconds [formatTime] shows the whole
    minutes, a colon and exactly two decimal digits of seconds (tens, then
    units), from which the number of seconds is recovered. *)
Theorem formatTime_minutes_colon_two_digits seconds :
  0 ≤ seconds →
  ∃ mins tens units,
    formatTime seconds = pretty mins +:+ ":" +:+ pretty tens +:+ pretty units ∧
    0 ≤ mins ∧ 0 ≤ tens < 6 ∧ 0 ≤ units < 10 ∧
    seconds = 60 * mins + 10 * tens + units.
Proof.
  intros Hnn.
  exists (seconds `div` 60), ((seconds `mod` 60) `div` 10),
    ((seconds `mod` 60) `mod` 10).
  pose proof (Z.mod_pos_bound seconds 60 eq_refl) as Hmod.
  pose proof (Z.div_mod seconds 60 ltac:(lia)) as Hdm.
  pose proof (Z.div_mod (seconds `mod` 60) 10 ltac:(lia)) as Hdm'.
  pose proof (Z.mod_pos_bound (seconds `mod` 60) 10 eq_refl) as Hmod'.
  unfold formatTime. rewrite Z.rem_mod_nonneg by lia.
  rewrite padStart_two_digits by done.
  split; [done|].
  split; [apply Z.div_pos; lia|].
  split; [split; [apply Z.div_pos; lia|apply Z.div_lt_upper_bound; lia]|].
  split; [lia|]. lia.
Qed.

Lemma formatTime_minutes_colon_two_digits_witness :
  0 ≤ 125 ∧
  ∃ mins tens units,
    formatTime 125 = pretty mins +:+ ":" +:+ pretty tens +:+ pretty units ∧
    0 ≤ mins ∧ 0 ≤ tens < 6 ∧ 0 ≤ units < 10 ∧
    125 = 60 * mins + 10 * tens + units.
Proof.
  split; [lia|]. apply (formatTime_minutes_colon_two_digits 125). lia.
Defined.

(** ** The duration of a session *)

Lemma durationMinutes_bounds start finish :
  60000 * durationMinutes start finish - 30000 ≤ finish - start
  < 60000 * durationMinutes start finish + 30000.
Proof.
  unfold durationMinutes.
  pose proof (Z.div_mod (finish - start + 30000) 60000 ltac:(lia)) as Hdm.
  pose proof (Z.mod_pos_bound (finish - start + 30000) 60000 eq_refl) as Hmod.
  lia.
Qed.

(** X2.  The duration [finishWorkout] stores is the one integer number of
    minutes within half a minute of the elapsed time, a half counting
    upwards. *)
Theorem durationMinutes_nearest_minute start finish (m : Z) :
  m = durationMinutes start finish
  ↔ 60000 * m - 30000 ≤ finish - start < 60000 * m + 30000.
Proof.
  pose proof (durationMinutes_bounds start finish) as Hb.
  split; [intros ->; exact Hb|]. intros Hm. lia.
Qed.

(** X3.  The header shows the minutes elapsed at its last render;
    [finishWorkout] reads the clock again when the button is pressed.  If
    the clock did not go back in between, the duration it sends is never
    less than the minute count the header shows, at most that count plus
    the whole minutes passed since the render plus two, and, when the
    press comes less than 30 seconds after the render, that count or one
    more. *)
Theorem finishWorkout_duration_near_header
    workout renderTime endTime update st :
  renderTime ≤ endTime →
  ∃ minutes,
    head (finishWorkout workout endTime update st).2
      = Some (UpdateSession (sessionId st) endTime minutes) ∧
    elapsedMinutes renderTime st ≤ minutes ∧
    minutes ≤ elapsedMinutes renderTime st
              + (endTime - renderTime) `div` 60000 + 2 ∧
    (endTime - renderTime < 30000 →
     minutes ≤ elapsedMinutes renderTime st + 1).
Proof.
  intros Hclock.
  exists (durationMinutes (startTime st) endTime).
  split; [apply finishWorkout_calls_update|].
  pose proof (durationMinutes_bounds (startTime st) endTime) as Hd.
  unfold elapsedMinutes.
  pose proof (Z.div_mod (renderTime - startTime st) 60000 ltac:(lia)).
  pose proof (Z.mod_pos_bound (renderTime - startTime st) 60000 eq_refl).
  pose proof (Z.div_mod (endTime - renderTime) 60000 ltac:(lia)).
  pose proof (Z.mod_pos_bound (endTime - renderTime) 60000 eq_refl).
  repeat split; [lia|lia|intros ?; lia].
Qed.

Lemma finishWorkout_duration_near_header_witness :
  1090000 ≤ 1100000 ∧
  ∃ minutes,
    head (finishWorkout pushDay 1100000 saved pushDayResting).2
      = Some (UpdateSession (sessionId pushDayResting) 1100000 minutes) ∧
    elapsedMinutes 1090000 pushDayResting ≤ minutes ∧
    minutes ≤ elapsedMinutes 1090000 pushDayResting
              + (1100000 - 1090000) `div` 60000 + 2 ∧
    (1100000 - 1090000 < 30000 →
     minutes ≤ elapsedMinutes 1090000 pushDayResting + 1).
Proof.
  split; [lia|].
  apply (finishWorkout_duration_near_header pushDay 1090000 1100000 saved
           pushDayResting).
  lia.
Defined.

(** X4.  A session finished less than 30 seconds after it started is
    stored with a duration of 0 minutes, which the history list shows as
    "N/A", the text of a session without duration. *)
Theorem formatDuration_short_session start finish :
  -30000 ≤ finish - start < 30000 →
  durationMinutes start finish = 0 ∧
  formatDuration (Some (durationMinutes start finish)) = "N/A" ∧
  formatDuration (Some (durationMinutes start finish)) = formatDuration None.
Proof.
  intros Hshort.
  assert (durationMinutes start finish = 0) as ->; [|done].
  pose proof (durationMinutes_bounds start finish). lia.
Qed.

Lemma formatDuration_short_session_witness :
  -30000 ≤ 1020000 - 1000000 < 30000 ∧
  durationMinutes 1000000 1020000 = 0 ∧
  formatDuration (Some (durationMinutes 1000000 1020000)) = "N/A" ∧
  formatDuration (Some (durationMinutes 1000000 1020000)) = formatDuration None.
Proof.
  split; [lia|]. apply (formatDuration_short_session 1000000 1020000). lia.
Defined.

(** ** Counting completed sets *)

Lemma filter_completed_length (l : list ActiveSet) :
  (length (List.filter completed l) ≤ length l)%nat ∧
  (forallb completed l = true ↔ length (List.filter completed l) = length l).
Proof.
  induction l as [|set l [IHle IHiff]]; simpl; [done|].
  destruct (completed set); simpl.
  - split; [lia|]. rewrite IHiff. split; lia.
  - split; [lia|]. split; [done|lia].
Qed.

(** X5.  The two counters of the screen agree: "Next Exercise" is offered
    ([allSetsCompleted]) exactly when the progress line counts as many
    completed sets as there are sets; it never counts more. *)
Theorem allSetsCompleted_iff_all_counted st :
  (completedSets st ≤ length (sets st))%nat ∧
  (allSetsCompleted st = true ↔ completedSets st = length (sets st)).
Proof. apply filter_completed_length. Qed.

Lemma newSetsFor_none_completed exercise :
  List.filter completed (newSetsFor exercise) = [].
Proof.
  rewrite newSetsFor_seqZ. induction (seqZ 1 (we_sets exercise)); by simpl.
Qed.

(** X6.  Right after the sets of an exercise are instantiated no set
    counts as completed, and "Next Exercise" is offered at once exactly
    when the prescription has no set at all (a count of 0 or less). *)
Theorem initializeSetsForExercise_gate workout exerciseIndex exercise st :
  workout_exercises workout !! exerciseIndex = Some exercise →
  ∃ st', initializeSetsForExercise workout exerciseIndex st = Some st' ∧
         completedSets st' = 0%nat ∧
         allSetsCompleted st' = bool_decide (we_sets exercise ≤ 0).
Proof.
  intros He. unfold initializeSetsForExercise. rewrite He.
  eexists. split; [done|]. unfold completedSets, allSetsCompleted. simpl.
  pose proof (filter_completed_length (newSetsFor exercise)) as [_ Hiff].
  rewrite newSetsFor_none_completed in *. split; [done|].
  destruct (newSetsFor_instantiated exercise) as [Hlen _]. simpl in Hiff.
  case_bool_decide.
  - apply Hiff. lia.
  - destruct (forallb completed (newSetsFor exercise)); [|done].
    pose proof (proj1 Hiff eq_refl). lia.
Qed.

Lemma initializeSetsForExercise_gate_witness :
  workout_exercises pushDay !! 1%nat = Some pushUp ∧
  ∃ st', initializeSetsForExercise pushDay 1 pushDayResting = Some st' ∧
         completedSets st' = 0%nat ∧
         allSetsCompleted st' = bool_decide (we_sets pushUp ≤ 0).
Proof.
  split; [reflexivity|].
  apply (initializeSetsForExercise_gate pushDay 1 pushUp pushDayResting).
  reflexivity.
Defined.

(** [updateSet] on a position that holds a set is a list update. *)
Lemma updateSet_insert i fv st set :
  sets st !! i = Some set →
  sets (updateSet i fv st) = <[i := spread set fv]> (sets st).
Proof.
  intros Hi. apply list_eq. intros j. destruct (decide (j = i)) as [->|Hne].
  - rewrite (lookup_updateSet_eq i fv st set Hi).
    by rewrite list_lookup_insert_eq by by eapply lookup_lt_Some.
  - rewrite lookup_updateSet_ne by done. by rewrite list_lookup_insert_ne.
Qed.

Lemma filter_completed_insert (l : list ActiveSet) i old new :
  l !! i = Some old → completed old = false → completed new = true →
  length (List.filter completed (<[i := new]> l))
  = S (length (List.filter completed l)).
Proof.
  intros Hi Hold Hnew.
  rewrite insert_take_drop by by eapply lookup_lt_Some.
  rewrite <- (take_drop_middle l i old Hi) at 3.
  rewrite !List.filter_app. simpl. rewrite Hold, Hnew.
  rewrite !length_app. simpl. lia.
Qed.

(** X7.  Completing a set that was not completed, with weight and reps
    entered and an insert that resolves, raises the count of completed
    sets by exactly one and changes no other set. *)
Theorem completeSet_counts_one_more workout i r st set :
  sets st !! i = Some set →
  completed set = false →
  truthyQ (weight_lbs set) = true →
  truthyZ (reps set) = true →
  let st' := (completeSet workout i (Fulfilled r) st).1 in
  completedSets st' = S (completedSets st) ∧
  sets st' = <[i := spread set (F_completed true)]> (sets st) ∧
  length (sets st') = length (sets st).
Proof.
  intros Hi Hopen Hw Hr st'. subst st'.
  rewrite (completeSet_truthy workout i _ st set Hi Hw Hr). simpl.
  assert (∀ s, sets s = sets (updateSet i (F_completed true) st) →
               completedSets s = S (completedSets st)
               ∧ sets s = <[i := spread set (F_completed true)]> (sets st)
               ∧ length (sets s) = length (sets st)) as Hany.
  { intros s Hs. unfold completedSets. rewrite Hs.
    rewrite (updateSet_insert i _ st set Hi).
    split; [|split; [done|apply length_insert]].
    apply (filter_completed_insert _ _ set); [done|done|by destruct set]. }
  match goal with |- context [if ?b then _ else _] => destruct b end;
    by apply Hany.
Qed.

Lemma completeSet_counts_one_more_witness :
  let st' := (completeSet pushDay 0 saved pushDayFilled).1 in
  completedSets st' = S (completedSets pushDayFilled) ∧
  sets st'
  = <[0%nat := spread (spread (spread (freshEntry benchPress 0)
                                 (F_weight_lbs (Some (Q2Qc 135))))
                         (F_reps (Some 5))) (F_completed true)]>
      (sets pushDayFilled) ∧
  length (sets st') = length (sets pushDayFilled).
Proof.
  apply (completeSet_counts_one_more pushDay 0
           {| resp_data := None; resp_error := None |} pushDayFilled
           (spread (spread (freshEntry benchPress 0)
                      (F_weight_lbs (Some (Q2Qc 135)))) (F_reps (Some 5))));
    reflexivity.
Defined.

(** ** Completed sets stay completed *)

Lemma keepsCompleted_refl st : keepsCompleted st st.
Proof. split; [done|]. intros i set Hi Hdone. by rewrite Hi; simpl; rewrite Hdone. Qed.

Lemma keepsCompleted_same_sets st st' :
  sets st' = sets st → keepsCompleted st st'.
Proof. intros Heq. unfold keepsCompleted. rewrite Heq. apply keepsCompleted_refl. Qed.

Lemma keepsCompleted_updateSet i fv st :
  (∀ set, completed set = true → completed (spread set fv) = true) →
  keepsCompleted st (updateSet i fv st).
Proof.
  intros Hfv. split; [apply length_updateSet|]. intros j set Hj Hdone.
  destruct (decide (j = i)) as [->|Hne].
  - rewrite (lookup_updateSet_eq i fv st set Hj). simpl. by rewrite Hfv.
  - rewrite lookup_updateSet_ne, Hj by done. simpl. by rewrite Hdone.
Qed.

Lemma keepsCompleted_typeInto i input parsedFloat parsedInt st :
  keepsCompleted st (typeInto i input parsedFloat parsedInt st).
Proof.
  unfold typeInto. destruct (sets st !! i) as [set|]; [|apply keepsCompleted_refl].
  destruct (editable set); [|apply keepsCompleted_refl].
  destruct input; simpl; apply keepsCompleted_updateSet; by intros [].
Qed.

Lemma keepsCompleted_completeSetResume workout seen i set insert st :
  keepsCompleted st (completeSetResume workout seen i set insert st).1.
Proof.
  destruct insert as [r|reason]; simpl; [|apply keepsCompleted_refl].
  pose proof (keepsCompleted_updateSet i (F_completed true) st) as Hupd.
  match goal with |- context [if ?b then _ else _] => destruct b end; simpl;
    apply Hupd; by intros [].
Qed.

(** X8.  Within an exercise nothing un-completes a set or changes the
    number of sets: typing into an input, [completeSet] (also when its
    insert resolves late), a tick, "Skip Rest" and "+30s" keep the length
    of [sets] and leave every completed set completed. *)
Theorem handlers_keep_completed workout st :
  (∀ i input parsedFloat parsedInt,
     keepsCompleted st (typeInto i input parsedFloat parsedInt st)) ∧
  (∀ i insert, keepsCompleted st (completeSet workout i insert st).1) ∧
  (∀ seen i insert, keepsCompleted st (completeSetLate workout seen i insert st).1) ∧
  keepsCompleted st (tick st) ∧
  keepsCompleted st (skipRest st) ∧
  keepsCompleted st (extendRest st).
Proof.
  assert (∀ seen i insert,
            keepsCompleted st (completeSetLate workout seen i insert st).1) as Hlate.
  { intros seen i insert. unfold completeSetLate.
    destruct (sets seen !! i) as [set|]; [|apply keepsCompleted_refl].
    destruct (negb _ || negb _); [apply keepsCompleted_refl|].
    pose proof (keepsCompleted_completeSetResume workout seen i set insert st).
    by destruct (completeSetResume workout seen i set insert st). }
  split; [intros; apply keepsCompleted_typeInto|].
  split; [intros i insert; apply (Hlate st i insert)|].
  split; [exact Hlate|].
  split; [|split]; apply keepsCompleted_same_sets.
  - unfold tick. destruct (intervalActive st); [|done].
    unfold tickCallback. by destruct (restTimer st <=? 1).
  - done.
  - done.
Qed.

(** ** Pressing "Complete Set" twice *)

Lemma completeSetLate_same_render workout i insert st :
  completeSetLate workout st i insert st = completeSet workout i insert st.
Proof. reflexivity. Qed.

Lemma updateSet_twice i fv st :
  (∀ set, spread (spread set fv) fv = spread set fv) →
  updateSet i fv (updateSet i fv st) = updateSet i fv st.
Proof.
  intros Hidem. destruct st as [sid t0 idx l rt res modal].
  unfold updateSet, setSets. simpl. f_equal.
  apply list_eq. intros j. rewrite !list_lookup_imap.
  destruct (l !! j) as [set|]; [simpl|done].
  case_decide; [|done]. by rewrite Hidem.
Qed.

(** X9.  Nothing stops a second press of "Complete Set" while the first
    insert is pending (the card still shows the button).  When both
    inserts resolve, the same row has been inserted twice and the state
    is the one a single press leaves. *)
Theorem completeSet_pressed_twice workout i r1 r2 st set :
  sets st !! i = Some set →
  truthyQ (weight_lbs set) = true →
  truthyZ (reps set) = true →
  let first := completeSet workout i (Fulfilled r1) st in
  let second := completeSetLate workout st i (Fulfilled r2) first.1 in
  first.2 = [InsertSessionSet (setRow (sessionId st) set)] ∧
  second.2 = [InsertSessionSet (setRow (sessionId st) set)] ∧
  second.1 = first.1.
Proof.
  intros Hi Hw Hr first second. subst first second.
  rewrite (completeSet_truthy workout i _ st set Hi Hw Hr).
  unfold completeSetLate. rewrite Hi, Hw, Hr. simpl.
  assert (∀ s, spread (spread s (F_completed true)) (F_completed true)
               = spread s (F_completed true)) as Hidem by by intros [].
  pose proof (updateSet_twice i (F_completed true) st Hidem) as Htwice.
  match goal with |- context [if ?b then _ else _] => destruct b end; simpl.
  - split; [done|]. split; [done|].
    unfold setShowRestModal, setIsResting, setRestTimer. simpl.
    f_equal. exact (f_equal sets Htwice).
  - by rewrite Htwice.
Qed.

Lemma completeSet_pressed_twice_witness :
  let first := completeSet pushDay 0 saved pushDayFilled in
  let second := completeSetLate pushDay pushDayFilled 0 saved first.1 in
  let row := setRow "s-1"
               (spread (spread (freshEntry benchPress 0)
                          (F_weight_lbs (Some (Q2Qc 135)))) (F_reps (Some 5))) in
  first.2 = [InsertSessionSet row] ∧
  second.2 = [InsertSessionSet row] ∧
  second.1 = first.1.
Proof.
  apply (completeSet_pressed_twice pushDay 0
           {| resp_data := None; resp_error := None |}
           {| resp_data := None; resp_error := None |} pushDayFilled
           (spread (spread (freshEntry benchPress 0)
                      (F_weight_lbs (Some (Q2Qc 135)))) (F_reps (Some 5))));
    reflexivity.
Defined.

(** ** The countdown, extended *)

Lemma tick_stopped n st :
  isResting st = false → Nat.iter n tick st = st.
Proof.
  intros Hidle. induction n as [|n IH]; [done|].
  simpl. rewrite IH. by apply tick_idle.
Qed.

Lemma extendRest_iter k st :
  restTimer (Nat.iter k extendRest st) = restTimer st + 30 * Z.of_nat k ∧
  isResting (Nat.iter k extendRest st) = isResting st.
Proof.
  induction k as [|k [IHt IHr]]; simpl; [split; [lia|done]|].
  rewrite IHt, IHr. split; [lia|done].
Qed.

Lemma tick_countdown_and_beyond n m st :
  isResting st = true → restTimer st = Z.of_nat (S n) → (S n ≤ m)%nat →
  restTimer (Nat.iter m tick st) = 0 ∧ isResting (Nat.iter m tick st) = false.
Proof.
  intros Hres Htimer Hm.
  replace m with ((m - S n) + S n)%nat by lia.
  rewrite Nat.iter_add.
  destruct (tick_countdown n st Hres Htimer) as [Hzero Hidle].
  by rewrite tick_stopped.
Qed.

Lemma tick_iter_running (t m : nat) st :
  isResting st = true → restTimer st = Z.of_nat t → (m < t)%nat →
  restTimer (Nat.iter m tick st) = Z.of_nat (t - m) ∧
  isResting (Nat.iter m tick st) = true.
Proof.
  intros Hres Htimer. induction m as [|m IH]; intros Hm.
  - simpl. split; [rewrite Htimer; f_equal; lia|done].
  - destruct IH as [IHt IHr]; [lia|]. simpl.
    destruct (tick_step (Nat.iter m tick st)) as [Ht Hr]; [done|lia|].
    rewrite Ht, Hr, IHt. split; [lia|].
    apply bool_decide_eq_true_2. lia.
Qed.

(** X10.  Each press of "+30s" adds 30 seconds to a running rest: a rest
    of [n > 0] seconds extended by [k] presses is still running after
    [m < n + 30 k] ticks, with [n + 30 k - m] seconds left, and is ended
    after [n + 30 k] ticks or more, with [restTimer] 0 (never below) and
    [isResting] false. *)
Theorem extended_rest_runs_then_ends (n k m : nat) st :
  isResting st = true →
  restTimer st = Z.of_nat n →
  (0 < n)%nat →
  let st' := Nat.iter m tick (Nat.iter k extendRest st) in
  ((m < n + 30 * k)%nat →
   restTimer st' = Z.of_nat (n + 30 * k - m) ∧ isResting st' = true) ∧
  ((n + 30 * k ≤ m)%nat →
   restTimer st' = 0 ∧ isResting st' = false).
Proof.
  intros Hres Htimer Hn st'. subst st'.
  destruct (extendRest_iter k st) as [Ht Hr].
  split; intros Hm.
  - apply tick_iter_running; [congruence|lia|done].
  - apply (tick_countdown_and_beyond (n + 30 * k - 1)); [congruence|lia|lia].
Qed.

Lemma extended_rest_runs_then_ends_witness :
  isResting pushDayResting = true ∧
  restTimer pushDayResting = Z.of_nat 30 ∧
  (restTimer (Nat.iter 89 tick (Nat.iter 2 extendRest pushDayResting)) = 1 ∧
   isResting (Nat.iter 89 tick (Nat.iter 2 extendRest pushDayResting)) = true) ∧
  (restTimer (Nat.iter 90 tick (Nat.iter 2 extendRest pushDayResting)) = 0 ∧
   isResting (Nat.iter 90 tick (Nat.iter 2 extendRest pushDayResting)) = false).
Proof.
  split; [reflexivity|]. split; [reflexivity|]. split.
  - apply (proj1 (extended_rest_runs_then_ends 30 2 89 pushDayResting
                    eq_refl eq_refl ltac:(lia))). lia.
  - apply (proj2 (extended_rest_runs_then_ends 30 2 90 pushDayResting
                    eq_refl eq_refl ltac:(lia))). lia.
Defined.

(** ** A start that does not succeed *)

(** X11.  Whatever the sign-in and the storage answer, unless a user is
    signed in and the session insert is answered with a row and no error,
    [initializeWorkoutSession] leaves the state as it was: no session id,
    no sets.  With nobody signed in it stops silently before the insert;
    in every other failing case it ends with the alert "Failed to start
    workout session". *)
Theorem start_fails_without_state_change workout st exercise getUser insert :
  workout_exercises workout !! 0%nat = Some exercise →
  let out := initializeWorkoutSession workout st getUser insert in
  (∃ user id,
     getUser = Fulfilled (Some user) ∧
     insert = Fulfilled {| resp_data := Some {| sr_id := id |};
                           resp_error := None |} ∧
     sessionId out.1 = id ∧ sets out.1 = newSetsFor exercise)
  ∨ (out.1 = st ∧
     (getUser = Fulfilled None → out.2 = [AuthGetUser]) ∧
     (getUser ≠ Fulfilled None →
      last out.2 = Some (AlertAlert "Error" "Failed to start workout session" []))).
Proof.
  intros Hfirst out. subst out. unfold initializeWorkoutSession.
  destruct getUser as [[user|]|reason]; cycle 1.
  - right. by repeat split.
  - right. by repeat split.
  - destruct insert as [[[[id]|] [err|]]|reason]; simpl;
      try (right; by repeat split).
    left. exists user, id. unfold initializeSetsForExercise.
    rewrite Hfirst. by simpl.
Qed.

Lemma start_fails_without_state_change_witness :
  workout_exercises pushDay !! 0%nat = Some benchPress ∧
  let out := initializeWorkoutSession pushDay (initialState 1000)
               (Fulfilled (Some "u-1"))
               (Fulfilled {| resp_data := None;
                             resp_error := Some "permission denied" |}) in
  (∃ user id,
     Fulfilled (Some "u-1") = Fulfilled (Some user) ∧
     Fulfilled {| resp_data := None; resp_error := Some "permission denied" |}
     = Fulfilled {| resp_data := Some {| sr_id := id |}; resp_error := None |} ∧
     sessionId out.1 = id ∧ sets out.1 = newSetsFor benchPress)
  ∨ (out.1 = initialState 1000 ∧
     (Fulfilled (Some "u-1") = Fulfilled None → out.2 = [AuthGetUser]) ∧
     (Fulfilled (Some "u-1") ≠ Fulfilled None →
      last out.2 = Some (AlertAlert "Error" "Failed to start workout session" []))).
Proof.
  split; [reflexivity|].
  apply (start_fails_without_state_change pushDay (initialState 1000) benchPress).
  reflexivity.
Defined.

(** X12.  Before the session insert has answered (and for good when it
    failed) the set list is empty, so "Next Exercise" is already offered;
    pressing it on a workout with a second exercise moves on to that
    exercise and builds its sets while the session id is still empty. *)
Theorem nextExercise_before_session_exists workout now endTime update second :
  workout_exercises workout !! 1%nat = Some second →
  allSetsCompleted (initialState now) = true ∧
  let st := (nextExercise workout endTime update (initialState now)).1 in
  (nextExercise workout endTime update (initialState now)).2 = [] ∧
  currentExerciseIndex st = 1%nat ∧
  sets st = newSetsFor second ∧
  sessionId st = "".
Proof.
  intros Hsecond. split; [done|].
  pose proof (lookup_lt_Some _ _ _ Hsecond) as Hlen.
  unfold nextExercise, initializeSetsForExercise. simpl.
  rewrite bool_decide_eq_true_2 by lia. by rewrite Hsecond.
Qed.

Lemma nextExercise_before_session_exists_witness :
  workout_exercises pushDay !! 1%nat = Some pushUp ∧
  allSetsCompleted (initialState 1000) = true ∧
  let st := (nextExercise pushDay 5000 saved (initialState 1000)).1 in
  (nextExercise pushDay 5000 saved (initialState 1000)).2 = [] ∧
  currentExerciseIndex st = 1%nat ∧
  sets st = newSetsFor pushUp ∧
  sessionId st = "".
Proof.
  split; [reflexivity|].
  apply (nextExercise_before_session_exists pushDay 1000 5000 saved pushUp).
  reflexivity.
Defined.

(** ** The sets belong to the workout *)

Lemma sameSlot_refl set : sameSlot set set.
Proof. by repeat split. Qed.

Lemma sameSlot_spread_input set other fv :
  (∀ s, sameSlot (spread s fv) s) → sameSlot set other →
  sameSlot (spread set fv) other.
Proof.
  intros Hfv (H1 & H2 & H3 & H4 & H5 & H6).
  destruct (Hfv set) as (G1 & G2 & G3 & G4 & G5 & G6).
  repeat split; congruence.
Qed.

Section SessionShape.
Variable workout : WorkoutWithExercises.

Lemma setsFrom_instantiated j exercise st :
  workout_exercises workout !! j = Some exercise →
  sets st = newSetsFor exercise →
  setsFrom workout j st.
Proof.
  intros He Hsets. exists exercise. rewrite Hsets.
  destruct (newSetsFor_instantiated exercise) as [Hlen Hk].
  split; [done|]. split; [done|]. intros k set Hset.
  assert (k < Z.to_nat (we_sets exercise))%nat as Hlt
    by (rewrite <- Hlen; by eapply lookup_lt_Some).
  rewrite (Hk k Hlt) in Hset. injection Hset as <-. apply sameSlot_refl.
Qed.

Lemma setsFrom_updateSet j i fv st :
  (∀ s, sameSlot (spread s fv) s) →
  setsFrom workout j st → setsFrom workout j (updateSet i fv st).
Proof.
  intros Hfv (exercise & He & Hlen & Hslots). exists exercise.
  split; [done|]. split; [by rewrite length_updateSet|].
  intros k set. rewrite sets_updateSet, list_lookup_imap.
  destruct (sets st !! k) as [old|] eqn:Hold; [simpl|done].
  intros [= <-]. case_decide; [|by apply Hslots].
  apply sameSlot_spread_input; [done|by apply Hslots].
Qed.

(** A step that leaves the index and [sets] alone. *)
Lemma sessionShape_same st st' :
  currentExerciseIndex st' = currentExerciseIndex st → sets st' = sets st →
  sessionShape workout st → sessionShape workout st'.
Proof. unfold sessionShape, setsFrom. by intros -> ->. Qed.

Lemma sessionShape_updateSet i fv st :
  (∀ s, sameSlot (spread s fv) s) →
  sessionShape workout st → sessionShape workout (updateSet i fv st).
Proof.
  intros Hfv [Hidx Hsets]. split; [done|].
  destruct Hsets as [Hnil | [Hcur | Hfirst]].
  - left. rewrite sets_updateSet, Hnil. done.
  - right. left. by apply setsFrom_updateSet.
  - right. right. by apply setsFrom_updateSet.
Qed.

Lemma sessionShape_typeInto i input parsedFloat parsedInt st :
  sessionShape workout st →
  sessionShape workout (typeInto i input parsedFloat parsedInt st).
Proof.
  intros Hst. unfold typeInto. destruct (sets st !! i) as [set|]; [|done].
  destruct (editable set); [|done].
  destruct input; simpl; apply sessionShape_updateSet; try done;
    intros []; by repeat split.
Qed.

Lemma sessionShape_completeSetResume seen i set insert st :
  sessionShape workout st →
  sessionShape workout (completeSetResume workout seen i set insert st).1.
Proof.
  intros Hst. destruct insert as [r|reason]; simpl; [|done].
  assert (sessionShape workout (updateSet i (F_completed true) st)) as Hupd
    by (apply sessionShape_updateSet; [intros []; by repeat split|done]).
  match goal with |- context [if ?b then _ else _] => destruct b end; simpl;
    [|done].
  by eapply sessionShape_same; [| |exact Hupd].
Qed.

Lemma sessionShape_completeSet i insert st :
  sessionShape workout st →
  sessionShape workout (completeSet workout i insert st).1.
Proof.
  intros Hst. unfold completeSet. destruct (sets st !! i) as [set|]; [|done].
  destruct (negb _ || negb _); [done|].
  pose proof (sessionShape_completeSetResume st i set insert st Hst).
  by destruct (completeSetResume workout st i set insert st).
Qed.

Lemma sessionShape_tickCallback st :
  sessionShape workout st → sessionShape workout (tickCallback st).
Proof.
  apply sessionShape_same; unfold tickCallback;
    by destruct (restTimer st <=? 1).
Qed.

Lemma sessionShape_tick st :
  sessionShape workout st → sessionShape workout (tick st).
Proof.
  unfold tick. destruct (intervalActive st); [|done].
  apply sessionShape_tickCallback.
Qed.

Lemma sessionShape_start getUser insert st :
  sessionShape workout st →
  sessionShape workout (initializeWorkoutSession workout st getUser insert).1.
Proof.
  intros Hst.
  destruct (start_cases workout st getUser insert)
    as [-> | [(id & ->) | (id & exercise & Hfirst & ->)]]; [done| |].
  - by apply (sessionShape_same st).
  - destruct Hst as [Hidx _]. split; [done|]. right. right.
    by apply (setsFrom_instantiated 0 exercise).
Qed.

Lemma sessionShape_nextExercise endTime update st :
  sessionShape workout st →
  sessionShape workout (nextExercise workout endTime update st).1.
Proof.
  intros Hst. unfold nextExercise.
  case_bool_decide as Hlt; [|by rewrite finishWorkout_state].
  destruct (next_prescription_exists workout st Hlt) as [exercise He].
  unfold initializeSetsForExercise. rewrite He. simpl. split.
  - right. simpl. lia.
  - right. left. by apply (setsFrom_instantiated _ exercise).
Qed.

Lemma reachable_sessionShape st :
  reachable workout st → sessionShape workout st.
Proof.
  induction 1 as [| | | | | | | st _ IH | st _ IH | ].
  - split; by left.
  - by apply sessionShape_start.
  - by apply sessionShape_typeInto.
  - by apply sessionShape_completeSet.
  - by apply sessionShape_completeSetResume.
  - by apply sessionShape_tick.
  - by apply sessionShape_tickCallback.
  - by apply (sessionShape_same st).
  - by apply (sessionShape_same st).
  - by apply sessionShape_nextExercise.
Qed.
End SessionShape.

(** X13.  In every state the screen reaches, the exercise index is 0 or
    a valid index of the workout, and [sets] is empty (no session yet) or
    is, entry by entry, the list instantiated for one prescription of the
    workout: the current exercise's or, after a start that answered once
    "Next Exercise" had been pressed, exercise 0's.  It has exactly one
    entry per prescribed set, and entry [k] still has the set number
    [k+1] and the exercise id, exercise name, target reps and rest
    seconds of that prescription: only the inputs and [completed] ever
    differ from the freshly instantiated entry. *)
Theorem reachable_sets_belong_to_workout workout st :
  reachable workout st →
  (currentExerciseIndex st = 0%nat
   ∨ (currentExerciseIndex st < length (workout_exercises workout))%nat) ∧
  (sets st = [] ∨
   ∃ j exercise,
     (j = currentExerciseIndex st ∨ j = 0%nat) ∧
     workout_exercises workout !! j = Some exercise ∧
     length (sets st) = Z.to_nat (we_sets exercise) ∧
     ∀ k set, sets st !! k = Some set →
       set_number set = Z.of_nat k + 1 ∧
       exercise_id set = we_exercise_id exercise ∧
       exercise_name set = ex_name (we_exercise exercise) ∧
       target_reps set = we_reps exercise ∧
       rest_seconds set = Some (we_rest_seconds exercise)).
Proof.
  intros Hreach.
  destruct (reachable_sessionShape workout st Hreach) as [Hidx Hsets].
  split; [done|].
  assert (∀ j, setsFrom workout j st →
            ∃ exercise,
              workout_exercises workout !! j = Some exercise ∧
              length (sets st) = Z.to_nat (we_sets exercise) ∧
              ∀ k set, sets st !! k = Some set →
                set_number set = Z.of_nat k + 1 ∧
                exercise_id set = we_exercise_id exercise ∧
                exercise_name set = ex_name (we_exercise exercise) ∧
                target_reps set = we_reps exercise ∧
                rest_seconds set = Some (we_rest_seconds exercise)) as Hfrom.
  { intros j (exercise & He & Hlen & Hslots). exists exercise.
    split; [done|]. split; [done|]. intros k set Hset.
    destruct (Hslots k set Hset) as (_ & H2 & H3 & H4 & H5 & H6). done. }
  destruct Hsets as [Hnil | [Hcur | Hfirst]]; [by left| |].
  - right. destruct (Hfrom _ Hcur) as (exercise & H).
    exists (currentExerciseIndex st), exercise. split; [by left|exact H].
  - right. destruct (Hfrom _ Hfirst) as (exercise & H).
    exists 0%nat, exercise. split; [by right|exact H].
Qed.

Lemma pushDayResting_reachable : reachable pushDay pushDayResting.
Proof.
  unfold pushDayResting. apply reach_completeSet.
  unfold pushDayFilled. do 2 apply reach_typeInto.
  unfold pushDayStarted. apply reach_start, reach_mount.
Defined.

Lemma pushDayRaced_reachable : reachable pushDay pushDayRaced.
Proof.
  unfold pushDayRaced. apply reach_start.
  unfold pushDayPressed. apply reach_nextExercise, reach_mount.
Defined.

Lemma reachable_sets_belong_to_workout_witness :
  reachable pushDay pushDayRaced ∧
  (currentExerciseIndex pushDayRaced = 0%nat
   ∨ (currentExerciseIndex pushDayRaced < length (workout_exercises pushDay))%nat) ∧
  (sets pushDayRaced = [] ∨
   ∃ j exercise,
     (j = currentExerciseIndex pushDayRaced ∨ j = 0%nat) ∧
     workout_exercises pushDay !! j = Some exercise ∧
     length (sets pushDayRaced) = Z.to_nat (we_sets exercise) ∧
     ∀ k set, sets pushDayRaced !! k = Some set →
       set_number set = Z.of_nat k + 1 ∧
       exercise_id set = we_exercise_id exercise ∧
       exercise_name set = ex_name (we_exercise exercise) ∧
       target_reps set = we_reps exercise ∧
       rest_seconds set = Some (we_rest_seconds exercise)).
Proof.
  split; [exact pushDayRaced_reachable|].
  exact (reachable_sets_belong_to_workout pushDay pushDayRaced
           pushDayRaced_reachable).
Defined.

(** ** What the stored inputs look like *)

Lemma Forall_updateSet (P : ActiveSet → Prop) i fv st :
  Forall P (sets st) →
  (∀ set, sets st !! i = Some set → P (spread set fv)) →
  Forall P (sets (updateSet i fv st)).
Proof.
  intros Hall Hnew. apply Forall_lookup_2. intros j set.
  rewrite sets_updateSet, list_lookup_imap.
  destruct (sets st !! j) as [old|] eqn:Hold; [simpl|done].
  intros [= <-]. case_decide as Hj.
  - subst j. by apply Hnew.
  - by eapply Forall_lookup_1.
Qed.

Lemma newSetsFor_Forall (P : ActiveSet → Prop) exercise :
  (∀ i, P (newSet exercise i)) → Forall P (newSetsFor exercise).
Proof.
  intros HP. rewrite newSetsFor_seqZ. apply Forall_fmap, Forall_forall.
  intros i _. apply HP.
Qed.

Lemma nullIfFalsyQ_not_zero parsed : nullIfFalsyQ parsed ≠ Some 0%Qc.
Proof.
  unfold nullIfFalsyQ. destruct parsed as [q|]; simpl; [|done].
  case_bool_decide; simpl; congruence.
Qed.

Lemma nullIfFalsyZ_not_zero parsed : nullIfFalsyZ parsed ≠ Some 0.
Proof.
  unfold nullIfFalsyZ. destruct parsed as [n|]; simpl; [|done].
  destruct (Z.eqb_spec n 0); simpl; congruence.
Qed.

Section StoredInputs.
Variable workout : WorkoutWithExercises.

Lemma noZeroInput_typeInto i input parsedFloat parsedInt st :
  Forall noZeroInput (sets st) →
  Forall noZeroInput (sets (typeInto i input parsedFloat parsedInt st)).
Proof.
  intros Hall. unfold typeInto. destruct (sets st !! i) as [set|] eqn:Hi; [|done].
  destruct (editable set); [|done].
  destruct input; simpl; apply Forall_updateSet; try done;
    intros s Hs; destruct (Forall_lookup_1 _ _ _ _ Hall Hs) as (Hw & Hr & Hp);
    destruct s; unfold noZeroInput in *; simpl in *; repeat split;
    auto using nullIfFalsyQ_not_zero, nullIfFalsyZ_not_zero.
Qed.

Lemma noZeroInput_completeSetResume seen i set insert st :
  Forall noZeroInput (sets st) →
  Forall noZeroInput (sets (completeSetResume workout seen i set insert st).1).
Proof.
  intros Hall. destruct insert as [r|reason]; simpl; [|done].
  assert (Forall noZeroInput (sets (updateSet i (F_completed true) st))) as Hupd.
  { apply Forall_updateSet; [done|]. intros s Hs.
    pose proof (Forall_lookup_1 _ _ _ _ Hall Hs). by destruct s. }
  by match goal with |- context [if ?b then _ else _] => destruct b end.
Qed.

Lemma noZeroInput_completeSet i insert st :
  Forall noZeroInput (sets st) →
  Forall noZeroInput (sets (completeSet workout i insert st).1).
Proof.
  intros Hall. unfold completeSet. destruct (sets st !! i) as [set|]; [|done].
  destruct (negb _ || negb _); [done|].
  pose proof (noZeroInput_completeSetResume st i set insert st Hall).
  by destruct (completeSetResume workout st i set insert st).
Qed.

Lemma noZeroInput_nextExercise endTime update st :
  Forall noZeroInput (sets st) →
  Forall noZeroInput (sets (nextExercise workout endTime update st).1).
Proof.
  intros Hall. unfold nextExercise.
  case_bool_decide; [|by rewrite finishWorkout_state].
  unfold initializeSetsForExercise.
  destruct (workout_exercises workout !! _) as [exercise|]; simpl; [|done].
  by apply newSetsFor_Forall.
Qed.
End StoredInputs.

(** X14.  In every state the screen reaches, before and after the start
    of the session, no set holds the number 0 as weight, reps or RPE: the
    inputs store null for a typed 0 (and for text that is no number), so
    the validation of [completeSet] only ever meets null or non-zero
    values. *)
Theorem reachable_inputs_never_zero workout st :
  reachable workout st →
  ∀ k set, sets st !! k = Some set →
    weight_lbs set ≠ Some 0%Qc ∧ reps set ≠ Some 0 ∧ rpe set ≠ Some 0.
Proof.
  intros Hreach.
  enough (Forall noZeroInput (sets st)) as Hall
    by (intros k set Hset; exact (Forall_lookup_1 _ _ _ _ Hall Hset)).
  induction Hreach as [|getUser insert st _ IH | | | | st _ IH | st _ IH | | | ].
  - constructor.
  - destruct (start_cases workout st getUser insert)
      as [-> | [(id & ->) | (id & exercise & Hfirst & ->)]]; [done|done|].
    by apply newSetsFor_Forall.
  - by apply noZeroInput_typeInto.
  - by apply noZeroInput_completeSet.
  - by apply noZeroInput_completeSetResume.
  - unfold tick, tickCallback. destruct (intervalActive st); [|done].
    by destruct (restTimer st <=? 1).
  - unfold tickCallback. by destruct (restTimer st <=? 1).
  - done.
  - done.
  - by apply noZeroInput_nextExercise.
Qed.

Lemma reachable_inputs_never_zero_witness :
  reachable pushDay pushDayResting ∧
  weight_lbs <$> sets pushDayResting !! 0%nat = Some (Some (Q2Qc 135)) ∧
  Some (Q2Qc 135) ≠ Some 0%Qc ∧ Some 5 ≠ Some 0 ∧ @None Z ≠ Some 0.
Proof.
  split; [exact pushDayResting_reachable|]. split; [reflexivity|].
  exact (reachable_inputs_never_zero pushDay pushDayResting
           pushDayResting_reachable 0%nat
           (spread (spread (spread (freshEntry benchPress 0)
                              (F_weight_lbs (Some (Q2Qc 135))))
                      (F_reps (Some 5))) (F_completed true))
           eq_refl).
Defined.

Section CompletedInputs.
Variable workout : WorkoutWithExercises.

Lemma completedHasInputs_typeInto i input parsedFloat parsedInt st :
  Forall completedHasInputs (sets st) →
  Forall completedHasInputs (sets (typeInto i input parsedFloat parsedInt st)).
Proof.
  intros Hall. unfold typeInto. destruct (sets st !! i) as [set|] eqn:Hi; [|done].
  destruct (editable set) eqn:Hed; [|done].
  apply negb_true_iff in Hed.
  destruct input; simpl; apply Forall_updateSet; try done;
    intros s Hs; assert (s = set) as -> by congruence;
    unfold completedHasInputs; destruct set; simpl in *; congruence.
Qed.

Lemma completedHasInputs_completeSet i insert st :
  Forall completedHasInputs (sets st) →
  Forall completedHasInputs (sets (completeSet workout i insert st).1).
Proof.
  intros Hall. unfold completeSet.
  destruct (sets st !! i) as [set|] eqn:Hi; [|done].
  destruct (truthyQ (weight_lbs set)) eqn:Hw; [|done].
  destruct (truthyZ (reps set)) eqn:Hr; [|done]. simpl.
  destruct insert as [r|reason]; simpl; [|done].
  assert (Forall completedHasInputs (sets (updateSet i (F_completed true) st)))
    as Hupd.
  { apply Forall_updateSet; [done|]. intros s Hs.
    assert (s = set) as -> by congruence. intros _. by destruct set. }
  by match goal with |- context [if ?b then _ else _] => destruct b end.
Qed.

Lemma completedHasInputs_nextExercise endTime update st :
  Forall completedHasInputs (sets st) →
  Forall completedHasInputs (sets (nextExercise workout endTime update st).1).
Proof.
  intros Hall. unfold nextExercise.
  case_bool_decide; [|by rewrite finishWorkout_state].
  unfold initializeSetsForExercise.
  destruct (workout_exercises workout !! _) as [exercise|]; simpl; [|done].
  by apply newSetsFor_Forall.
Qed.
End CompletedInputs.

(** X15.  As long as every [completeSet] finishes its [await] before the
    next event, every completed set of a reachable state carries the
    weight and the reps it was completed with: both are entered
    (non-null, non-zero), because the inputs of a completed set take no
    text and only the guarded [completeSet] sets the flag. *)
Theorem completed_sets_have_inputs workout st :
  reachableSync workout st →
  ∀ k set, sets st !! k = Some set → completed set = true →
    (∃ w, weight_lbs set = Some w ∧ w ≠ 0%Qc) ∧
    (∃ n, reps set = Some n ∧ n ≠ 0).
Proof.
  intros Hreach.
  enough (Forall completedHasInputs (sets st)) as Hall.
  { intros k set Hset Hdone.
    destruct (Forall_lookup_1 _ _ _ _ Hall Hset Hdone) as [Hw Hr].
    destruct set as [? ? ? ? [w|] [n|] ? ? ? ?]; simpl in *; try done.
    split; [exists w|exists n]; split; try done.
    - apply negb_true_iff, bool_decide_eq_false in Hw. done.
    - apply negb_true_iff, Z.eqb_neq in Hr. done. }
  induction Hreach as [|getUser insert st _ IH | | | st _ IH | | | ].
  - constructor.
  - destruct (start_cases workout st getUser insert)
      as [-> | [(id & ->) | (id & exercise & Hfirst & ->)]]; [done|done|].
    by apply newSetsFor_Forall.
  - by apply completedHasInputs_typeInto.
  - by apply completedHasInputs_completeSet.
  - unfold tick, tickCallback. destruct (intervalActive st); [|done].
    by destruct (restTimer st <=? 1).
  - done.
  - done.
  - by apply completedHasInputs_nextExercise.
Qed.

Lemma pushDayResting_reachableSync : reachableSync pushDay pushDayResting.
Proof.
  unfold pushDayResting. apply sync_completeSet.
  unfold pushDayFilled. do 2 apply sync_typeInto.
  unfold pushDayStarted. apply sync_start, sync_mount.
Defined.

Lemma completed_sets_have_inputs_witness :
  reachableSync pushDay pushDayResting ∧
  completed <$> sets pushDayResting !! 0%nat = Some true ∧
  (∃ w, Some (Q2Qc 135) = Some w ∧ w ≠ 0%Qc) ∧
  (∃ n, Some 5 = Some n ∧ n ≠ 0).
Proof.
  split; [exact pushDayResting_reachableSync|]. split; [reflexivity|].
  exact (completed_sets_have_inputs pushDay pushDayResting
           pushDayResting_reachableSync 0%nat
           (spread (spread (spread (freshEntry benchPress 0)
                              (F_weight_lbs (Some (Q2Qc 135))))
                      (F_reps (Some 5))) (F_completed true))
           eq_refl eq_refl).
Defined.

(** ** The detail screen and the session *)

Lemma completeSet_rest_started workout i r st set :
  sets st !! i = Some set →
  truthyQ (weight_lbs set) = true →
  truthyZ (reps set) = true →
  ¬ (S i = length (sets st) ∧
     S (currentExerciseIndex st) = length (workout_exercises workout)) →
  restTimer (completeSet workout i (Fulfilled r) st).1
  = orDefault (rest_seconds set) 60.
Proof.
  intros Hi Hw Hr Hnot.
  rewrite (completeSet_truthy workout i _ st set Hi Hw Hr). simpl.
  match goal with |- context [if ?b then _ else _] => destruct b eqn:Hb end;
    [done|].
  exfalso. apply Hnot. apply orb_false_iff in Hb as [H1 H2].
  apply negb_false_iff, bool_decide_eq_true in H1, H2. lia.
Qed.

Lemma formatTime_restLabel exercise :
  formatTime (we_rest_seconds exercise) +:+ " rest" = restLabel exercise.
Proof. unfold formatTime, restLabel. by rewrite !append_assoc. Qed.

(** X16.  Completing a set that is not the last set of the last
    exercise starts the countdown at the rest of the prescription the set
    was instantiated from (the one whose [rest_seconds] it carries), and
    the modal then shows the very time the detail screen printed on that
    exercise's card; unless that prescription is 0 seconds: then the card
    read "0:00 rest" and the modal starts at "1:00".  The prescription is
    the set's own, whatever the exercise index says. *)
Theorem rest_modal_matches_detail_card workout i r st set exercise :
  sets st !! i = Some set →
  rest_seconds set = Some (we_rest_seconds exercise) →
  truthyQ (weight_lbs set) = true →
  truthyZ (reps set) = true →
  ¬ (S i = length (sets st) ∧
     S (currentExerciseIndex st) = length (workout_exercises workout)) →
  let st' := (completeSet workout i (Fulfilled r) st).1 in
  isResting st' = true ∧ showRestModal st' = true ∧
  (we_rest_seconds exercise ≠ 0 →
   restTimer st' = we_rest_seconds exercise ∧
   formatTime (restTimer st') +:+ " rest" = restLabel exercise) ∧
  (we_rest_seconds exercise = 0 →
   restTimer st' = 60 ∧ formatTime (restTimer st') = "1:00" ∧
   restLabel exercise = "0:00 rest").
Proof.
  intros Hi Hrest Hw Hr Hnot st'.
  pose proof (completeSet_rest_started workout i r st set Hi Hw Hr Hnot) as Ht.
  assert (isResting st' = true ∧ showRestModal st' = true) as [Hres Hmodal].
  { subst st'. rewrite (completeSet_truthy workout i _ st set Hi Hw Hr). simpl.
    match goal with |- context [if ?b then _ else _] => destruct b eqn:Hb end;
      [done|].
    exfalso. apply Hnot. apply orb_false_iff in Hb as [H1 H2].
    apply negb_false_iff, bool_decide_eq_true in H1, H2. lia. }
  split; [done|]. split; [done|].
  subst st'. rewrite Ht, Hrest. simpl. split.
  - intros Hne. rewrite (proj2 (Z.eqb_neq _ _) Hne).
    split; [done|apply formatTime_restLabel].
  - intros Hzero. unfold restLabel. rewrite Hzero. done.
Qed.

(** In the session of [pushDay] whose start answered after "Next
    Exercise", the index stands at Push Up (rest 0) and the sets are
    Bench Press's (rest 30): the countdown follows the set. *)
Lemma rest_modal_matches_detail_card_witness :
  let filled :=
    typeInto 0 RepsInput None (Some 5)
      (typeInto 0 WeightInput (Some (Q2Qc 135)) None pushDayRaced) in
  let st' := (completeSet pushDay 0 saved filled).1 in
  workout_exercises pushDay !! currentExerciseIndex filled = Some pushUp ∧
  isResting st' = true ∧ showRestModal st' = true ∧
  (we_rest_seconds benchPress ≠ 0 →
   restTimer st' = we_rest_seconds benchPress ∧
   formatTime (restTimer st') +:+ " rest" = restLabel benchPress) ∧
  (we_rest_seconds benchPress = 0 →
   restTimer st' = 60 ∧ formatTime (restTimer st') = "1:00" ∧
   restLabel benchPress = "0:00 rest").
Proof.
  intros filled st'. split; [reflexivity|].
  apply (rest_modal_matches_detail_card pushDay 0
           {| resp_data := None; resp_error := None |} filled
           (spread (spread (freshEntry benchPress 0)
                      (F_weight_lbs (Some (Q2Qc 135)))) (F_reps (Some 5)))
           benchPress).
  - reflexivity.
  - reflexivity.
  - reflexivity.
  - reflexivity.
  - vm_compute. intros [H _]. discriminate H.
Defined.

Lemma totalSets_foldl (l : list WorkoutExercise) (acc : Z) :
  Forall (λ exercise, 0 ≤ we_sets exercise) l →
  foldl (λ sum exercise, sum + we_sets exercise) acc l
  = acc + Z.of_nat (sum_list ((λ exercise, length (newSetsFor exercise)) <$> l)).
Proof.
  intros Hall. revert acc.
  induction Hall as [|exercise l Hnn _ IH]; intros acc; simpl; [lia|].
  rewrite IH. destruct (newSetsFor_instantiated exercise) as [-> _].
  simpl in Hnn. rewrite Nat2Z.inj_add, Z2Nat.id, Z.add_assoc by done.
  reflexivity.
Qed.

(** X17.  When no prescription has a negative set count, the "Total
    Sets" of the detail screen is the number of set cards the session
    presents over all exercises of the workout. *)
Theorem totalSets_counts_session_cards workout :
  Forall (λ exercise, 0 ≤ we_sets exercise) (workout_exercises workout) →
  totalSets workout
  = Z.of_nat (sum_list ((λ exercise, length (newSetsFor exercise))
                          <$> workout_exercises workout)).
Proof.
  intros Hall. unfold totalSets. by rewrite totalSets_foldl.
Qed.

Lemma totalSets_counts_session_cards_witness :
  Forall (λ exercise, 0 ≤ we_sets exercise) (workout_exercises pushDay) ∧
  totalSets pushDay
  = Z.of_nat (sum_list ((λ exercise, length (newSetsFor exercise))
                          <$> workout_exercises pushDay)).
Proof.
  assert (Forall (λ exercise, 0 ≤ we_sets exercise) (workout_exercises pushDay))
    as Hall by (repeat constructor; simpl; lia).
  split; [exact Hall|].
  exact (totalSets_counts_session_cards pushDay Hall).
Defined.

(** ** A completion that arrives after "Next Exercise" *)

(** X18.  [completeSet] applies its updates by position, to the state of
    the moment its insert resolves.  If by then position [i] holds
    another, uncompleted set (the session moved on to the next exercise,
    possible after a double press whose first insert completed the set),
    that set is marked completed with whatever inputs it has, also none,
    and counted, while the inserted row carries the values seen when the
    button was pressed. *)
Theorem late_completion_marks_current_set workout seen i set r st current :
  sets seen !! i = Some set →
  truthyQ (weight_lbs set) = true →
  truthyZ (reps set) = true →
  sets st !! i = Some current →
  completed current = false →
  let out := completeSetLate workout seen i (Fulfilled r) st in
  out.2 = [InsertSessionSet (setRow (sessionId seen) set)] ∧
  sets out.1 !! i = Some (spread current (F_completed true)) ∧
  weight_lbs <$> sets out.1 !! i = Some (weight_lbs current) ∧
  reps <$> sets out.1 !! i = Some (reps current) ∧
  completedSets out.1 = S (completedSets st).
Proof.
  intros Hi Hw Hr Hcur Hopen out.
  assert (out.2 = [InsertSessionSet (setRow (sessionId seen) set)]
          ∧ sets out.1 = sets (updateSet i (F_completed true) st)) as [Hrow Hsets].
  { subst out. unfold completeSetLate. rewrite Hi, Hw, Hr. simpl.
    by match goal with |- context [if ?b then _ else _] => destruct b end. }
  split; [done|]. rewrite Hsets.
  rewrite (lookup_updateSet_eq i _ st current Hcur).
  split; [done|]. split; [by destruct current|]. split; [by destruct current|].
  unfold completedSets. rewrite Hsets, (updateSet_insert i _ st _ Hcur).
  apply (filter_completed_insert _ i current); [done|done|by destruct current].
Qed.

Lemma late_completion_marks_current_set_witness :
  let first := (completeSet pushDay 0 saved pushDayFilled).1 in
  let moved := (nextExercise pushDay 200000 saved (skipRest first)).1 in
  let out := completeSetLate pushDay pushDayFilled 0 saved moved in
  sets moved !! 0%nat = Some (freshEntry pushUp 0) ∧
  out.2 = [InsertSessionSet
             (setRow "s-1"
                (spread (spread (freshEntry benchPress 0)
                           (F_weight_lbs (Some (Q2Qc 135)))) (F_reps (Some 5))))] ∧
  sets out.1 !! 0%nat = Some (spread (freshEntry pushUp 0) (F_completed true)) ∧
  weight_lbs <$> sets out.1 !! 0%nat = Some None ∧
  reps <$> sets out.1 !! 0%nat = Some None ∧
  completedSets out.1 = S (completedSets moved).
Proof.
  intros first moved out. split; [reflexivity|].
  apply (late_completion_marks_current_set pushDay pushDayFilled 0
           (spread (spread (freshEntry benchPress 0)
                      (F_weight_lbs (Some (Q2Qc 135)))) (F_reps (Some 5)))
           {| resp_data := None; resp_error := None |} moved
           (freshEntry pushUp 0));
    reflexivity.
Defined.
